(** * Muse: image -> story -> speech -> co-author chat

    A shallow embedding of the orchestration layer of the Muse client:
    [services/geminiService.ts] (the three calls to the generative
    endpoint), [components/ChatInterface.tsx] (the chat transcript and
    [handleSend]), [App.tsx] (the story state and its handlers) and
    [components/ImageUpload.tsx] (the file validation).

    Conventions.
    - A JavaScript string is a [string]; [undefined]/[null] are [None].
    - A call that may throw (or a promise that may reject) yields a
      [result]; what a function does to the outside (requests sent,
      console output, audio nodes) is recorded as a list of [Event]s.
    - The provider client [ai] and the helpers of [utils/audioUtils]
      are arguments: the first is the remote service, the second is a
      module whose source is not part of this development. *)

From Stdlib Require Import String Ascii List Bool NArith Arith Lia.
From Stdlib Require Import Numbers.DecimalString Numbers.DecimalN Numbers.DecimalPos.
Import ListNotations.
Local Open Scope string_scope.
Local Open Scope list_scope.

Set Implicit Arguments.

(* ------------------------------------------------------------------ *)
(** ** JavaScript values and control *)

Module JS.

(** A thrown value; the message is all the code ever looks at
    (it only logs it). *)
Definition JsError := string.

Inductive result (A : Type) : Type :=
| Return (a : A)
| Throw (e : JsError).
Arguments Return {A} a.
Arguments Throw {A} e.

(** Truthiness of a string: only the empty string is falsy. *)
Definition truthy (s : string) : bool :=
  match s with EmptyString => false | String _ _ => true end.

(** Truthiness of [string | undefined | null]. *)
Definition truthy_opt (o : option string) : bool :=
  match o with Some s => truthy s | None => false end.

(** [a || b] on [string | undefined] with a string default. *)
Definition or_else (o : option string) (d : string) : string :=
  match o with
  | Some s => if truthy s then s else d
  | None => d
  end.

(** WhiteSpace and LineTerminator code units below 256:
    TAB, LF, VT, FF, CR, SP and NBSP. *)
Definition is_space (c : ascii) : bool :=
  let n := nat_of_ascii c in
  (((9 <=? n) && (n <=? 13)) || (n =? 32) || (n =? 160))%nat.

Fixpoint trimStart (s : string) : string :=
  match s with
  | String c s' => if is_space c then trimStart s' else s
  | EmptyString => EmptyString
  end.

(** [trimEnd] keeps a character when it is not a space or when
    something survives after it. *)
Fixpoint trimEnd (s : string) : string :=
  match s with
  | String c s' =>
      match trimEnd s' with
      | EmptyString => if is_space c then EmptyString else String c EmptyString
      | t => String c t
      end
  | EmptyString => EmptyString
  end.

Definition trim (s : string) : string := trimEnd (trimStart s).

Fixpoint startsWith (s p : string) {struct p} : bool :=
  match p, s with
  | EmptyString, _ => true
  | String a p', String b s' => Ascii.eqb a b && startsWith s' p'
  | String _ _, EmptyString => false
  end.

(** [Number.prototype.toString] on a non-negative integer. *)
Definition toString (n : N) : string :=
  NilZero.string_of_uint (N.to_uint n).

(** *** The fragment of regular expressions the code uses

    [/^data:image\/\w+;base64,/] is a sequence of literal characters
    and one greedy [\w+]; the pattern is anchored and not global. *)

Inductive atom : Type :=
| Lit (c : ascii)
| WordPlus.

Definition is_word (c : ascii) : bool :=
  let n := nat_of_ascii c in
  (((48 <=? n) && (n <=? 57)) || ((65 <=? n) && (n <=? 90))
   || ((97 <=? n) && (n <=? 122)) || (n =? 95))%nat.

(** Greedy [\w+] followed by the continuation [k]: take one word
    character, try to take more, fall back to stopping here. *)
Fixpoint word_plus (k : string -> option string) (s : string) : option string :=
  match s with
  | String c s' =>
      if is_word c then
        match word_plus k s' with
        | Some r => Some r
        | None => k s'
        end
      else None
  | EmptyString => None
  end.

(** [match_at p s] is the text left after the pattern has matched a
    prefix of [s], with the backtracking order of the engine. *)
Fixpoint match_at (p : list atom) (s : string) : option string :=
  match p with
  | [] => Some s
  | Lit c :: p' =>
      match s with
      | String c' s' => if Ascii.eqb c c' then match_at p' s' else None
      | EmptyString => None
      end
  | WordPlus :: p' => word_plus (match_at p') s
  end.

Fixpoint lits (s : string) : list atom :=
  match s with
  | EmptyString => []
  | String c s' => Lit c :: lits s'
  end.

(** [s.replace(/^p/, empty)]: the matched prefix is dropped. *)
Definition replace_anchored (p : list atom) (s : string) : string :=
  match match_at p s with
  | Some rest => rest
  | None => s
  end.

End JS.
Import JS.

(* ------------------------------------------------------------------ *)
(** ** The provider's wire types (the parts of @google/genai in use) *)

Inductive Role : Type := user | model.

Inductive Modality : Type := AUDIO | TEXT | IMAGE.

Record Blob : Type := mkBlob {
  blob_mimeType : option string;
  blob_data : option string
}.

Record Part : Type := mkPart {
  inlineData : option Blob;
  part_text : option string
}.

Record Content : Type := mkContent {
  content_role : option Role;
  parts : option (list Part)
}.

Record Candidate : Type := mkCandidate {
  content : option Content
}.

(** [text] is [string | undefined] in the SDK. *)
Record GenerateContentResponse : Type := mkResponse {
  candidates : option (list Candidate);
  text : option string
}.

Record SpeechConfig : Type := mkSpeechConfig {
  voiceName : string   (* voiceConfig.prebuiltVoiceConfig.voiceName *)
}.

Record GenerateContentConfig : Type := mkConfig {
  responseModalities : list Modality;
  speechConfig : option SpeechConfig;
  systemInstruction : option string
}.

(** [contents] is given once as an object and once as an array. *)
Inductive ContentUnion : Type :=
| OneContent (c : Content)
| ContentList (l : list Content).

Record GenerateContentParameters : Type := mkParams {
  gc_model : string;
  contents : ContentUnion;
  gc_config : option GenerateContentConfig
}.

Record CreateChatParameters : Type := mkChatParams {
  chat_model : string;
  history : list Content;
  chat_config : GenerateContentConfig
}.

Record SendMessageParameters : Type := mkSend {
  message : string
}.

(** The session handle returned by [ai.chats.create]. *)
Record Chat : Type := mkChat {
  sendMessage : SendMessageParameters -> result GenerateContentResponse
}.

(** The client object [ai]: every way the endpoint may answer. *)
Record GoogleGenAI : Type := mkAI {
  models_generateContent : GenerateContentParameters -> result GenerateContentResponse;
  chats_create : CreateChatParameters -> result Chat
}.

(** *** Web Audio *)

Record AudioContext : Type := mkAudioContext {
  sampleRate : N
}.

(** A decoded buffer: its rate and its samples per channel, kept as
    the raw 16-bit integers. *)
Record AudioBuffer : Type := mkAudioBuffer {
  buffer_sampleRate : N;
  channelData : list (list N)
}.

(** [utils/audioUtils]; both helpers may throw. *)
Record AudioUtils : Type := mkUtils {
  decodeBase64 : string -> result (list N);
  decodeAudioData : list N -> AudioContext -> result AudioBuffer
}.

(* ------------------------------------------------------------------ *)
(** ** Effects *)

Inductive Event : Type :=
| EvGenerateContent (p : GenerateContentParameters)
| EvChatCreate (p : CreateChatParameters)
| EvSendMessage (p : SendMessageParameters)
| EvNewAudioContext (rate : N)
| EvConsoleError (label : string) (e : JsError)
| EvConsoleWarn (msg : string)
| EvAlert (msg : string)
| EvSourceStart (b : AudioBuffer)
| EvSourceStop.

(** A computation of the service layer: what it did, and how it ended. *)
Definition Eff (A : Type) : Type := (list Event * result A)%type.

Module EffM.

Definition ret {A} (a : A) : Eff A := ([], Return a).

Definition bind {A B} (m : Eff A) (f : A -> Eff B) : Eff B :=
  match m with
  | (l, Return a) => let '(l', r) := f a in (l ++ l', r)
  | (l, Throw e) => (l, Throw e)
  end.

Definition throw {A} (e : JsError) : Eff A := ([], Throw e).

Definition emit (ev : Event) : Eff unit := ([ev], Return tt).

(** A call to the outside: the request is recorded, then the answer
    is whatever the outside gave. *)
Definition call {A} (ev : Event) (r : result A) : Eff A := ([ev], r).

Definition lift {A} (r : result A) : Eff A := ([], r).

Definition try_catch {A} (m : Eff A) (h : JsError -> Eff A) : Eff A :=
  match m with
  | (l, Return a) => (l, Return a)
  | (l, Throw e) => let '(l', r) := h e in (l ++ l', r)
  end.

End EffM.
Import EffM.

Declare Scope eff_scope.
Delimit Scope eff_scope with eff.
Notation "x <- m ;; k" := (bind m (fun x => k))
  (at level 61, m at next level, right associativity) : eff_scope.
Notation "m ;;; k" := (bind m (fun _ => k))
  (at level 61, right associativity) : eff_scope.
Local Open Scope eff_scope.

Definition trace {A} (m : Eff A) : list Event := fst m.
Definition outcome {A} (m : Eff A) : result A := snd m.

(* ------------------------------------------------------------------ *)
(** ** services/geminiService.ts *)

Module Gemini.

Definition header_pattern : list atom :=
  lits "data:image/" ++ [WordPlus] ++ lits ";base64,".

Definition cleanBase64 (base64Image : string) : string :=
  replace_anchored header_pattern base64Image.

Definition story_prompt : string :=
  "Analyze the mood, lighting, and details of this image. Then, act as a master storyteller. Write a compelling, atmospheric opening paragraph (approx 150 words) for a story set in this scene. Focus on sensory details and establishing the tone.".

Definition story_fallback : string :=
  "I couldn't generate a story at this time.".

Definition story_request (base64Image mimeType : string) : GenerateContentParameters :=
  {| gc_model := "gemini-3-pro-preview";
     contents := OneContent
       {| content_role := None;
          parts := Some
            [ {| inlineData := Some {| blob_mimeType := Some mimeType;
                                       blob_data := Some (cleanBase64 base64Image) |};
                 part_text := None |};
              {| inlineData := None; part_text := Some story_prompt |} ] |};
     gc_config := None |}.

Definition generateStoryFromImage (ai : GoogleGenAI) (base64Image mimeType : string)
  : Eff string :=
  try_catch
    (let req := story_request base64Image mimeType in
     response <- call (EvGenerateContent req) (models_generateContent ai req) ;;
     ret (or_else (text response) story_fallback))
    (fun error =>
       emit (EvConsoleError "Error generating story:" error) ;;;
       throw error).

Definition speech_request (txt : string) : GenerateContentParameters :=
  {| gc_model := "gemini-2.5-flash-preview-tts";
     contents := ContentList
       [ {| content_role := None;
            parts := Some [ {| inlineData := None; part_text := Some txt |} ] |} ];
     gc_config := Some
       {| responseModalities := [AUDIO];
          speechConfig := Some {| voiceName := "Puck" |};
          systemInstruction := None |} |}.

(** [xs?.[0]] *)
Definition first {A} (o : option (list A)) : option A :=
  match o with
  | Some (x :: _) => Some x
  | _ => None
  end.

(** [a?.f] *)
Definition chain {A B} (o : option A) (f : A -> option B) : option B :=
  match o with
  | Some a => f a
  | None => None
  end.

(** [response.candidates?.[0]?.content?.parts?.[0]?.inlineData?.data] *)
Definition base64Audio (response : GenerateContentResponse) : option string :=
  chain (chain (first (chain (chain (first (candidates response)) content) parts))
               inlineData)
        blob_data.

Definition generateSpeech (ai : GoogleGenAI) (utils : AudioUtils) (txt : string)
  : Eff (option AudioBuffer) :=
  try_catch
    (let req := speech_request txt in
     response <- call (EvGenerateContent req) (models_generateContent ai req) ;;
     match base64Audio response with
     | Some b =>
         if truthy b then
           emit (EvNewAudioContext 24000) ;;;
           let audioContext := {| sampleRate := 24000 |} in
           audioBytes <- lift (decodeBase64 utils b) ;;
           buffer <- lift (decodeAudioData utils audioBytes audioContext) ;;
           ret (Some buffer)
         else
           emit (EvConsoleWarn "No audio data received") ;;; ret None
     | None =>
         emit (EvConsoleWarn "No audio data received") ;;; ret None
     end)
    (fun error =>
       emit (EvConsoleError "Error generating speech:" error) ;;;
       throw error).

Definition persona : string :=
  "You are a helpful and creative writing assistant (Co-author). You help the user develop their story, offering ideas, answering questions about the plot, characters, or the world generated from the image. Keep answers concise but inspiring.".

Definition apology : string :=
  "I'm having trouble connecting to the muse right now.".

Record ImageContext : Type := mkImageContext {
  ic_base64 : string;
  ic_mimeType : string
}.

(** The optional third argument: left out, [null], or an object. *)
Inductive ImageContextArg : Type :=
| Absent
| Null
| Given (c : ImageContext).

Definition chat_params (hist : list Content) : CreateChatParameters :=
  {| chat_model := "gemini-3-pro-preview";
     history := hist;
     chat_config := {| responseModalities := [];
                       speechConfig := None;
                       systemInstruction := Some persona |} |}.

(** The value returned is [result.text], which the SDK types as
    [string | undefined]. *)
Definition sendChatMessage (ai : GoogleGenAI) (hist : list Content)
  (newMessage : string) (imageContext : ImageContextArg) : Eff (option string) :=
  try_catch
    (let cfg := chat_params hist in
     chat <- call (EvChatCreate cfg) (chats_create ai cfg) ;;
     let messageToSend := newMessage in
     let msg := {| message := messageToSend |} in
     result <- call (EvSendMessage msg) (sendMessage chat msg) ;;
     ret (text result))
    (fun error =>
       emit (EvConsoleError "Chat error:" error) ;;;
       ret (Some apology)).

End Gemini.

(* ------------------------------------------------------------------ *)
(** ** types.ts and components/ChatInterface.tsx *)

Module ChatUI.

(** [text] holds whatever [sendChatMessage] resolved to, which is
    [undefined] when the reply carries no text. *)
Record ChatMessage : Type := mkMsg {
  id : string;
  role : Role;
  msg_text : option string
}.

Record ChatState : Type := mkChatState {
  messages : list ChatMessage;
  input : string;
  isLoading : bool
}.

Definition greeting : ChatMessage :=
  {| id := "1"; role := model;
     msg_text := Some "Hello! I am your co-author. Feel free to ask me questions about the story world or for ideas on how to continue." |}.

Definition initial : ChatState :=
  {| messages := [greeting]; input := EmptyString; isLoading := false |}.

Definition setInput (v : string) (s : ChatState) : ChatState :=
  {| messages := messages s; input := v; isLoading := isLoading s |}.

Definition quote : string := String (ascii_of_nat 34) EmptyString.
Definition newline : string := String (ascii_of_nat 10) EmptyString.

(** The template literal of [handleSend]. *)
Definition grounded (initialContext inp : string) : string :=
  "Context: The story so far is: " ++ quote ++ initialContext ++ quote
  ++ ". " ++ newline ++ newline ++ " User Question: " ++ inp.

(** [!input.trim() || isLoading] *)
Definition blocked (s : ChatState) : bool :=
  negb (truthy (trim (input s))) || isLoading s.

Definition apiHistory (s : ChatState) : list Content :=
  map (fun m => {| content_role := Some (role m);
                   parts := Some [ {| inlineData := None; part_text := msg_text m |} ] |})
      (messages s).

Definition finalInput (initialContext : option string) (s : ChatState) : string :=
  match initialContext with
  | Some ctx =>
      if (length (messages s) =? 1)%nat && truthy ctx
      then grounded ctx (input s)
      else input s
  | None => input s
  end.

(** Up to the [await]: the user's entry is appended, the field is
    cleared and the loading flag is raised. [now] is [Date.now()]. *)
Definition handleSend_begin (now : N) (s : ChatState) : ChatState :=
  let userMsg := {| id := toString now; role := user; msg_text := Some (input s) |} in
  {| messages := messages s ++ [userMsg]; input := EmptyString; isLoading := true |}.

(** The call itself, built from the values the handler closed over. *)
Definition handleSend_call (ai : GoogleGenAI) (initialContext : option string)
  (s : ChatState) : Eff (option string) :=
  Gemini.sendChatMessage ai (apiHistory s) (finalInput initialContext s) Gemini.Absent.

(** After the [await]: [try] appends the reply, [catch] does nothing,
    [finally] lowers the flag. [now'] is the second [Date.now()]. *)
Definition handleSend_settle (now' : N) (r : result (option string)) (s : ChatState)
  : ChatState :=
  let msgs :=
    match r with
    | Return responseText =>
        messages s ++ [ {| id := toString (now' + 1); role := model;
                           msg_text := responseText |} ]
    | Throw _ => messages s
    end in
  {| messages := msgs; input := input s; isLoading := false |}.

Definition handleSend (ai : GoogleGenAI) (initialContext : option string)
  (now now' : N) (s : ChatState) : list Event * ChatState :=
  if blocked s then ([], s)
  else
    let m := handleSend_call ai initialContext s in
    (trace m, handleSend_settle now' (outcome m) (handleSend_begin now s)).

(** [handleKeyPress]: Enter without Shift sends. *)
Definition handleKeyPress (key : string) (shiftKey : bool)
  (ai : GoogleGenAI) (initialContext : option string) (now now' : N) (s : ChatState)
  : list Event * ChatState :=
  if String.eqb key "Enter" && negb shiftKey
  then handleSend ai initialContext now now' s
  else ([], s).

(** The send button is disabled on [isLoading || !input.trim()]. *)
Definition send_disabled (s : ChatState) : bool :=
  isLoading s || negb (truthy (trim (input s))).

(** States the component passes through: typing, a send getting past
    the guard, and the reply (or failure) of the call in flight. *)
Inductive reachable : ChatState -> Prop :=
| r_initial : reachable initial
| r_typing v s : reachable s -> reachable (setInput v s)
| r_send now s : reachable s -> blocked s = false -> reachable (handleSend_begin now s)
| r_settle now' ai ctx h m s :
    reachable s -> isLoading s = true ->
    reachable (handleSend_settle now' (outcome (Gemini.sendChatMessage ai h m ctx)) s).

(** The texts handed to [chat.sendMessage] in a trace. *)
Fixpoint sent (l : list Event) : list string :=
  match l with
  | EvSendMessage p :: l' => message p :: sent l'
  | _ :: l' => sent l'
  | [] => []
  end.

(** The histories handed to [ai.chats.create] in a trace. *)
Fixpoint histories (l : list Event) : list (list Content) :=
  match l with
  | EvChatCreate p :: l' => history p :: histories l'
  | _ :: l' => histories l'
  | [] => []
  end.

End ChatUI.

(* ------------------------------------------------------------------ *)
(** ** components/ImageUpload.tsx *)

Module Upload.

(** A picked file: its MIME type and the base64 of its bytes. *)
Record File : Type := mkFile {
  file_type : string;
  file_base64 : string
}.

(** What [FileReader.readAsDataURL] hands to [onloadend]. *)
Definition readAsDataURL (f : File) : string :=
  "data:" ++ file_type f ++ ";base64," ++ file_base64 f.

(** [processFile]: the arguments given to [onImageSelected], if it
    is called at all. *)
Definition processFile (file : option File) : list Event * option (string * string) :=
  match file with
  | None => ([], None)
  | Some f =>
      if negb (startsWith (file_type f) "image/")
      then ([EvAlert "Please upload an image file."], None)
      else ([], Some (readAsDataURL f, file_type f))
  end.

End Upload.

(* ------------------------------------------------------------------ *)
(** ** App.tsx *)

Module App.

(** The component's [useState] cells and its two refs. The source
    node is represented by the buffer it plays. *)
Record AppState : Type := mkApp {
  image : option string;
  mimeType : string;
  story : string;
  isGenerating : bool;
  audioBuffer : option AudioBuffer;
  isPlaying : bool;
  audioContextRef : option AudioContext;
  sourceNodeRef : option AudioBuffer
}.

(** State after the mount effect has created the playback context. *)
Definition mounted : AppState :=
  {| image := None; mimeType := EmptyString; story := EmptyString;
     isGenerating := false; audioBuffer := None; isPlaying := false;
     audioContextRef := Some {| sampleRate := 24000 |};
     sourceNodeRef := None |}.

Definition unreadable : string :=
  "Sorry, I was unable to read the stars for this image. Please try again.".

(** [handleImageSelected] up to the [await]. *)
Definition handleImageSelected_begin (base64 type : string) (s : AppState) : AppState :=
  {| image := Some base64; mimeType := type; story := EmptyString;
     isGenerating := true; audioBuffer := None; isPlaying := isPlaying s;
     audioContextRef := audioContextRef s; sourceNodeRef := sourceNodeRef s |}.

(** [handleImageSelected] once the promise has settled:
    [try]/[catch] set the story, [finally] lowers the flag. *)
Definition handleImageSelected_settle (r : result string) (s : AppState) : AppState :=
  let text' :=
    match r with
    | Return generatedStory => generatedStory
    | Throw _ => unreadable
    end in
  {| image := image s; mimeType := mimeType s; story := text';
     isGenerating := false; audioBuffer := audioBuffer s; isPlaying := isPlaying s;
     audioContextRef := audioContextRef s; sourceNodeRef := sourceNodeRef s |}.

(** The whole handler when nothing else happens during the call. *)
Definition handleImageSelected (ai : GoogleGenAI) (base64 type : string) (s : AppState)
  : list Event * AppState :=
  let m := Gemini.generateStoryFromImage ai base64 type in
  (trace m, handleImageSelected_settle (outcome m) (handleImageSelected_begin base64 type s)).

(** Resuming a suspended context leaves every cell as it is; the
    new source node replaces the one in the ref without stopping it. *)
Definition playBuffer (buffer : AudioBuffer) (s : AppState) : list Event * AppState :=
  match audioContextRef s with
  | None => ([], s)
  | Some _ =>
      ([EvSourceStart buffer],
       {| image := image s; mimeType := mimeType s; story := story s;
          isGenerating := isGenerating s; audioBuffer := audioBuffer s;
          isPlaying := true;
          audioContextRef := audioContextRef s; sourceNodeRef := Some buffer |})
  end.

Definition stopAudio (s : AppState) : list Event * AppState :=
  (match sourceNodeRef s with Some _ => [EvSourceStop] | None => [] end,
   {| image := image s; mimeType := mimeType s; story := story s;
      isGenerating := isGenerating s; audioBuffer := audioBuffer s;
      isPlaying := false;
      audioContextRef := audioContextRef s; sourceNodeRef := None |}).

(** [source.onended] *)
Definition onended (s : AppState) : AppState :=
  {| image := image s; mimeType := mimeType s; story := story s;
     isGenerating := isGenerating s; audioBuffer := audioBuffer s;
     isPlaying := false;
     audioContextRef := audioContextRef s; sourceNodeRef := sourceNodeRef s |}.

Definition setAudioBuffer (b : option AudioBuffer) (s : AppState) : AppState :=
  {| image := image s; mimeType := mimeType s; story := story s;
     isGenerating := isGenerating s; audioBuffer := b;
     isPlaying := isPlaying s;
     audioContextRef := audioContextRef s; sourceNodeRef := sourceNodeRef s |}.

(** [handleReadAloud] up to the [await]: the text handed to
    [generateSpeech], when the handler gets that far. *)
Definition handleReadAloud_begin (s : AppState) : list Event * AppState * option string :=
  if isPlaying s then (stopAudio s, None)
  else if negb (truthy (story s)) then ([], s, None)
  else match audioBuffer s with
       | Some b => (playBuffer b s, None)
       | None => ([], s, Some (story s))
       end.

(** [handleReadAloud] once [generateSpeech] has settled. *)
Definition handleReadAloud_settle (r : result (option AudioBuffer)) (s : AppState)
  : list Event * AppState :=
  match r with
  | Return (Some buffer) => playBuffer buffer (setAudioBuffer (Some buffer) s)
  | Return None => ([], s)
  | Throw e => ([EvConsoleError "Failed to play audio" e], s)
  end.

(** The whole handler when nothing else happens during the call. *)
Definition handleReadAloud (ai : GoogleGenAI) (utils : AudioUtils) (s : AppState)
  : list Event * AppState :=
  match handleReadAloud_begin s with
  | (l, s1, Some txt) =>
      let m := Gemini.generateSpeech ai utils txt in
      let '(l', s2) := handleReadAloud_settle (outcome m) s1 in
      (l ++ trace m ++ l', s2)
  | (l, s1, None) => (l, s1)
  end.

Definition handleReset (s : AppState) : list Event * AppState :=
  let '(l, s1) := stopAudio s in
  (l, {| image := None; mimeType := mimeType s1; story := EmptyString;
         isGenerating := isGenerating s1; audioBuffer := None;
         isPlaying := isPlaying s1;
         audioContextRef := audioContextRef s1; sourceNodeRef := sourceNodeRef s1 |}).

(** What the render function shows. *)
Definition shows_upload (s : AppState) : bool := negb (truthy_opt (image s)).
Definition readAloud_disabled (s : AppState) : bool :=
  isGenerating s || negb (truthy (story s)).

(** *** The session as an event loop

    Calls in flight are kept with the arguments they were issued
    with; they settle in any order, between any two user events.
    [lastSynth] is bookkeeping of the proof, not of the program: the
    text of the synthesis whose buffer was cached last. *)
Record World : Type := mkWorld {
  ui : AppState;
  storyCalls : list (string * string);
  speechCalls : list string;
  lastSynth : option string
}.

Definition boot : World :=
  {| ui := mounted; storyCalls := []; speechCalls := []; lastSynth := None |}.

Inductive Action : Type :=
| SelectImage (base64 type : string)
| StorySettles (k : nat) (ai : GoogleGenAI)
| ClickReadAloud
| SpeechSettles (k : nat) (ai : GoogleGenAI) (utils : AudioUtils)
| AudioEnds
| ClickReset.

Fixpoint remove_nth {A} (k : nat) (l : list A) : list A :=
  match k, l with
  | _, [] => []
  | O, _ :: l' => l'
  | S k', x :: l' => x :: remove_nth k' l'
  end.

Definition step (a : Action) (w : World) : World :=
  match a with
  | SelectImage base64 type =>
      {| ui := handleImageSelected_begin base64 type (ui w);
         storyCalls := storyCalls w ++ [(base64, type)];
         speechCalls := speechCalls w; lastSynth := lastSynth w |}
  | StorySettles k ai =>
      match nth_error (storyCalls w) k with
      | Some (base64, type) =>
          {| ui := handleImageSelected_settle
                     (outcome (Gemini.generateStoryFromImage ai base64 type)) (ui w);
             storyCalls := remove_nth k (storyCalls w);
             speechCalls := speechCalls w; lastSynth := lastSynth w |}
      | None => w
      end
  | ClickReadAloud =>
      let '(_, s1, issued) := handleReadAloud_begin (ui w) in
      {| ui := s1; storyCalls := storyCalls w;
         speechCalls := match issued with
                        | Some txt => speechCalls w ++ [txt]
                        | None => speechCalls w
                        end;
         lastSynth := lastSynth w |}
  | SpeechSettles k ai utils =>
      match nth_error (speechCalls w) k with
      | Some txt =>
          let r := outcome (Gemini.generateSpeech ai utils txt) in
          {| ui := snd (handleReadAloud_settle r (ui w));
             storyCalls := storyCalls w;
             speechCalls := remove_nth k (speechCalls w);
             lastSynth := match r with
                          | Return (Some _) => Some txt
                          | _ => lastSynth w
                          end |}
      | None => w
      end
  | AudioEnds =>
      {| ui := onended (ui w); storyCalls := storyCalls w;
         speechCalls := speechCalls w; lastSynth := lastSynth w |}
  | ClickReset =>
      {| ui := snd (handleReset (ui w)); storyCalls := storyCalls w;
         speechCalls := speechCalls w; lastSynth := lastSynth w |}
  end.

Definition run (l : list Action) (w : World) : World :=
  fold_left (fun w a => step a w) l w.

Definition reachable (w : World) : Prop := exists l, w = run l boot.

(** The cache invariant: a cached buffer came from a synthesis of
    the story now on display. *)
Definition cache_fresh (w : World) : Prop :=
  forall b, audioBuffer (ui w) = Some b -> lastSynth w = Some (story (ui w)).

(** *** The states of the interface, read off the state cells

    This follows the wording of the design: Idle, ImageSelected,
    StoryGenerating, StoryReady and AudioPlaying. A state in which a
    story is being generated while audio plays is none of them. *)
Inductive Phase : Type :=
| Idle | ImageSelected | StoryGenerating | StoryReady | AudioPlaying.

Definition phase (s : AppState) : option Phase :=
  if negb (truthy_opt (image s)) then Some Idle
  else match isGenerating s, isPlaying s with
       | true, false => Some StoryGenerating
       | false, true => Some AudioPlaying
       | true, true => None
       | false, false =>
           if truthy (story s) then Some StoryReady else Some ImageSelected
       end.

End App.

(* ------------------------------------------------------------------ *)
(** ** Vocabulary of the statements *)

Import Gemini.

(** A MIME subtype written with word characters only, at least one:
    [jpeg], [png], [webp], [gif], [heic], ... *)
Fixpoint word_chars (s : string) : bool :=
  match s with
  | EmptyString => true
  | String c s' => is_word c && word_chars s'
  end.

Definition word_subtype (s : string) : bool := truthy s && word_chars s.

(** The image formats the upload widget advertises (JPG, PNG, WEBP). *)
Definition advertised_subtypes : list string := ["jpeg"; "png"; "webp"].

(** The [data] fields of the inline parts of a request. *)
Definition part_data (p : Part) : list string :=
  match inlineData p with
  | Some b => match blob_data b with Some d => [d] | None => [] end
  | None => []
  end.

Definition content_data (c : Content) : list string :=
  match parts c with Some ps => flat_map part_data ps | None => [] end.

Definition request_data (p : GenerateContentParameters) : list string :=
  match contents p with
  | OneContent c => content_data c
  | ContentList l => flat_map content_data l
  end.

(** Every [data] field sent to the generation endpoint in a trace. *)
Fixpoint data_sent (l : list Event) : list string :=
  match l with
  | EvGenerateContent p :: l' => request_data p ++ data_sent l'
  | _ :: l' => data_sent l'
  | [] => []
  end.

(** Every non-empty inline payload of a response, in any part of any
    candidate. *)
Definition part_payloads (p : Part) : list string :=
  filter truthy (part_data p).

Definition candidate_payloads (c : Candidate) : list string :=
  match content c with
  | Some c' => match parts c' with
               | Some ps => flat_map part_payloads ps
               | None => []
               end
  | None => []
  end.

Definition audio_payloads (r : GenerateContentResponse) : list string :=
  match candidates r with
  | Some cs => flat_map candidate_payloads cs
  | None => []
  end.

(** Sample rates of the audio contexts created in a trace. *)
Fixpoint contexts (l : list Event) : list N :=
  match l with
  | EvNewAudioContext r :: l' => r :: contexts l'
  | _ :: l' => contexts l'
  | [] => []
  end.

(** Requests sent to the generation endpoint in a trace. *)
Fixpoint requests (l : list Event) : list GenerateContentParameters :=
  match l with
  | EvGenerateContent p :: l' => p :: requests l'
  | _ :: l' => requests l'
  | [] => []
  end.

(** A string that does not begin with a word character stops [\w+]. *)
Definition stops_word (s : string) : bool :=
  match s with
  | EmptyString => true
  | String c _ => negb (is_word c)
  end.

Definition silent_ai : GoogleGenAI :=
  {| models_generateContent := fun _ => Return {| candidates := None; text := None |};
     chats_create := fun _ => Throw "offline" |}.

Definition echo_utils : AudioUtils :=
  {| decodeBase64 := fun s => Return [N.of_nat (String.length s)];
     decodeAudioData := fun bytes ctx =>
       Return {| buffer_sampleRate := sampleRate ctx; channelData := [bytes] |} |}.

Definition audio_response (d : string) : GenerateContentResponse :=
  {| candidates := Some [ {| content := Some
        {| content_role := Some model;
           parts := Some [ {| inlineData := Some {| blob_mimeType := Some "audio/L16";
                                                    blob_data := Some d |};
                              part_text := None |} ] |} |} ];
     text := None |}.

Definition speaking_ai : GoogleGenAI :=
  {| models_generateContent := fun _ => Return (audio_response "AAEC");
     chats_create := fun _ => Throw "offline" |}.


(** An endpoint whose chat always answers with the given text. *)
Definition chatty_ai (reply : string) : GoogleGenAI :=
  {| models_generateContent := fun _ => Throw "offline";
     chats_create := fun _ =>
       Return {| sendMessage := fun _ =>
                   Return {| candidates := None; text := Some reply |} |} |}.

Definition dragon_question : ChatUI.ChatState :=
  ChatUI.setInput "What color is the dragon?" ChatUI.initial.

(** A second Enter while the first send is still in flight. *)
Definition typing_while_loading : ChatUI.ChatState :=
  ChatUI.setInput "And its eyes?" (ChatUI.handleSend_begin 1000 dragon_question).

(** An endpoint that tells the same story for every image. *)
Definition teller_ai : GoogleGenAI :=
  {| models_generateContent := fun _ =>
       Return {| candidates := None; text := Some "Once upon a time." |};
     chats_create := fun _ => Throw "offline" |}.

Definition png_upload : string := "data:image/png;base64,iVBORw0KGgo=".

(** Read-aloud is clicked, then the image is reset before the speech
    call settles. *)
Definition reset_during_synthesis : list App.Action :=
  [ App.SelectImage png_upload "image/png";
    App.StorySettles 0 teller_ai;
    App.ClickReadAloud;
    App.ClickReset;
    App.SpeechSettles 0 speaking_ai echo_utils ].

(** Helpers whose base64 decoder rejects every payload. *)
Definition broken_utils : AudioUtils :=
  {| decodeBase64 := fun _ => Throw "InvalidCharacterError";
     decodeAudioData := fun bytes ctx =>
       Return {| buffer_sampleRate := sampleRate ctx; channelData := [bytes] |} |}.

(** A string made of white space only (the empty string included). *)
Fixpoint all_space (s : string) : bool :=
  match s with
  | EmptyString => true
  | String c s' => is_space c && all_space s'
  end.

Definition flip (r : Role) : Role :=
  match r with user => model | model => user end.

Definition role_eqb (a b : Role) : bool :=
  match a, b with
  | user, user | model, model => true
  | _, _ => false
  end.

(** The entries take turns, the first one being [expect]'s. *)
Fixpoint alternating (expect : Role) (l : list ChatUI.ChatMessage) : bool :=
  match l with
  | [] => true
  | m :: l' => role_eqb (ChatUI.role m) expect && alternating (flip expect) l'
  end.

(** The session could not be created, or the message could not be
    sent. *)
Definition chat_fails (ai : GoogleGenAI) (hist : list Content) (msg : string) : Prop :=
  match chats_create ai (chat_params hist) with
  | Throw _ => True
  | Return chat =>
      match sendMessage chat {| message := msg |} with
      | Throw _ => True
      | Return _ => False
      end
  end.

Definition blank_draft : ChatUI.ChatState :=
  ChatUI.setInput "   " ChatUI.initial.

(** The [mimeType] fields of the inline parts of a request. *)
Definition part_mime (p : Part) : list string :=
  match inlineData p with
  | Some b => match blob_mimeType b with Some m => [m] | None => [] end
  | None => []
  end.

Definition request_mimes (p : GenerateContentParameters) : list string :=
  match contents p with
  | OneContent c => match parts c with Some ps => flat_map part_mime ps | None => [] end
  | ContentList l =>
      flat_map (fun c => match parts c with
                         | Some ps => flat_map part_mime ps
                         | None => []
                         end) l
  end.

Fixpoint mimes_sent (l : list Event) : list string :=
  match l with
  | EvGenerateContent p :: l' => request_mimes p ++ mimes_sent l'
  | _ :: l' => mimes_sent l'
  | [] => []
  end.

(** Audio sources started in a trace. *)
Fixpoint started (l : list Event) : list AudioBuffer :=
  match l with
  | EvSourceStart b :: l' => b :: started l'
  | _ :: l' => started l'
  | [] => []
  end.

Definition is_nil {A} (l : list A) : bool :=
  match l with [] => true | _ => false end.

(** Sequential use of the screen: an image is selected only when no
    call is in flight, and the screen is reset only when no speech
    call is in flight. *)
Definition calm (a : App.Action) (w : App.World) : bool :=
  match a with
  | App.SelectImage _ _ => is_nil (App.storyCalls w) && is_nil (App.speechCalls w)
  | App.ClickReset => is_nil (App.speechCalls w)
  | _ => true
  end.

Fixpoint calm_run (l : list App.Action) (w : App.World) : bool :=
  match l with
  | [] => true
  | a :: l' => calm a w && calm_run l' (App.step a w)
  end.

(** What sequential use keeps true. *)
Definition settled (w : App.World) : Prop :=
  length (App.storyCalls w) <= 1 /\
  (App.storyCalls w <> [] ->
     App.story (App.ui w) = EmptyString /\
     App.audioBuffer (App.ui w) = None /\
     App.speechCalls w = []) /\
  (forall t, In t (App.speechCalls w) -> t = App.story (App.ui w)) /\
  App.cache_fresh w.

Definition png_file : Upload.File :=
  {| Upload.file_type := "image/png"; Upload.file_base64 := "iVBORw0KGgo=" |}.

Definition svg_file : Upload.File :=
  {| Upload.file_type := "image/svg+xml"; Upload.file_base64 := "PHN2Zz4=" |}.

(** The screen with a story on display and nothing cached. *)
Definition story_ready : App.AppState :=
  snd (App.handleImageSelected teller_ai png_upload "image/png" App.mounted).

(** A story is generated, read aloud from the endpoint, and read
    aloud once more after the audio has ended. *)
Definition read_aloud_twice : list App.Action :=
  [ App.SelectImage png_upload "image/png";
    App.StorySettles 0 teller_ai;
    App.ClickReadAloud;
    App.SpeechSettles 0 speaking_ai echo_utils;
    App.AudioEnds;
    App.ClickReadAloud ].

(** The system instructions handed to [ai.chats.create] in a trace. *)
Fixpoint personas (l : list Event) : list (option string) :=
  match l with
  | EvChatCreate p :: l' => systemInstruction (chat_config p) :: personas l'
  | _ :: l' => personas l'
  | [] => []
  end.

(** Alerts shown in a trace. *)
Fixpoint alerts (l : list Event) : list string :=
  match l with
  | EvAlert m :: l' => m :: alerts l'
  | _ :: l' => alerts l'
  | [] => []
  end.

(** The speech calls of one event that resolved to a buffer, each
    with the text it was made for. *)
Definition synth_of (a : App.Action) (w : App.World) : list (string * AudioBuffer) :=
  match a with
  | App.SpeechSettles k ai utils =>
      match nth_error (App.speechCalls w) k with
      | Some txt =>
          match outcome (generateSpeech ai utils txt) with
          | Return (Some b) => [(txt, b)]
          | _ => []
          end
      | None => []
      end
  | _ => []
  end.

(** The same along a run, oldest first. *)
Fixpoint synths (l : list App.Action) (w : App.World) : list (string * AudioBuffer) :=
  match l with
  | [] => []
  | a :: l' => synth_of a w ++ synths l' (App.step a w)
  end.

(** The cached buffer, if any, is what a speech call recorded in
    [log] resolved to, and that call was made for the story now on
    display. *)
Definition cache_genuine (log : list (string * AudioBuffer)) (w : App.World) : Prop :=
  forall b, App.audioBuffer (App.ui w) = Some b ->
            In (App.story (App.ui w), b) log.


(** An endpoint that is out of reach. *)
Definition offline_ai : GoogleGenAI :=
  {| models_generateContent := fun _ => Throw "offline";
     chats_create := fun _ => Throw "offline" |}.



(** A screen that is generating, reached by selecting an image on
    the freshly mounted component. *)
Definition generating : App.AppState :=
  App.handleImageSelected_begin png_upload "image/png" App.mounted.
(* ================================================================== *)
(** * Properties of the service layer *)

Section RegexFacts.

Lemma match_at_lits p rest : match_at (lits p) (p ++ rest) = Some rest.
Proof.
  induction p as [|c p IH]; simpl; [reflexivity|].
  now rewrite Ascii.eqb_refl.
Qed.

Lemma word_plus_stops k s : stops_word s = true -> word_plus k s = None.
Proof.
  destruct s as [|c s]; simpl; [reflexivity|].
  intros H. apply negb_true_iff in H. now rewrite H.
Qed.

(** The greedy run takes the whole subtype when the continuation
    accepts what follows it. *)
Lemma word_plus_run k sub rest r :
  word_subtype sub = true -> stops_word rest = true -> k rest = Some r ->
  word_plus k (sub ++ rest) = Some r.
Proof.
  unfold word_subtype.
  induction sub as [|c sub IH]; simpl; [discriminate|].
  intros Hw Hstop Hk.
  apply andb_true_iff in Hw as [Hc Hsub]. rewrite Hc.
  destruct sub as [|c' sub'].
  - simpl. now rewrite (word_plus_stops k rest Hstop).
  - rewrite IH; auto.
Qed.

Lemma match_at_lits_app p q s : match_at (lits p ++ q) (p ++ s) = match_at q s.
Proof.
  induction p as [|c p IH]; simpl; [reflexivity|].
  now rewrite Ascii.eqb_refl.
Qed.

Lemma cleanBase64_strips sub payload :
  word_subtype sub = true ->
  cleanBase64 ("data:image/" ++ sub ++ ";base64," ++ payload) = payload.
Proof.
  intros Hw. unfold cleanBase64, replace_anchored, header_pattern.
  rewrite match_at_lits_app.
  change (match_at ([WordPlus] ++ lits ";base64,"))
    with (word_plus (match_at (lits ";base64,"))).
  rewrite (word_plus_run (match_at (lits ";base64,")) sub
             (";base64," ++ payload) (r := payload)); auto.
Qed.

End RegexFacts.

Lemma generateStory_trace ai b m :
  requests (trace (generateStoryFromImage ai b m)) = [story_request b m].
Proof.
  unfold generateStoryFromImage, trace, call, try_catch, bind, ret, emit, throw.
  destruct (models_generateContent ai (story_request b m)); reflexivity.
Qed.

(** C5. An image string that carries a data-URI header
    "data:image/<subtype>;base64," whose subtype is written with word
    characters (the advertised JPG, PNG and WEBP among them) is sent
    without the header: the one request [generateStoryFromImage] makes
    has exactly one [data] field and it is the bare payload. *)
Theorem generateStory_strips_header :
  forall ai sub payload mime,
    word_subtype sub = true ->
    data_sent (trace (generateStoryFromImage ai
                        ("data:image/" ++ sub ++ ";base64," ++ payload) mime))
    = [payload].
Proof.
  intros ai sub payload mime Hw.
  unfold generateStoryFromImage, trace, call, try_catch, bind, ret, emit, throw.
  destruct (models_generateContent ai _); cbn -[cleanBase64 append];
    now rewrite (cleanBase64_strips sub payload Hw).
Qed.

Lemma generateStory_strips_header_witness :
  word_subtype "png" = true /\
  data_sent (trace (generateStoryFromImage silent_ai
                      ("data:image/" ++ "png" ++ ";base64," ++ "iVBORw0KGgo=") "image/png"))
  = ["iVBORw0KGgo="].
Proof.
  split; [reflexivity|].
  apply (generateStory_strips_header silent_ai "png" "iVBORw0KGgo=" "image/png").
  reflexivity.
Defined.

(** C4. [generateStoryFromImage] never resolves to an empty string:
    when the endpoint answers, the result is the answer's non-empty
    text, or the fixed fallback when the text is missing or empty;
    when the endpoint fails, the same error is rethrown. *)
Theorem generateStory_text_or_fallback :
  forall ai b m,
    match models_generateContent ai (story_request b m),
          outcome (generateStoryFromImage ai b m) with
    | Return resp, Return s =>
        s <> EmptyString /\
        ((text resp = Some s) \/
         (truthy_opt (text resp) = false /\ s = story_fallback))
    | Throw e, Throw e' => e = e'
    | _, _ => False
    end.
Proof.
  intros ai b m.
  unfold generateStoryFromImage, outcome, call, try_catch, bind, ret, emit, throw.
  destruct (models_generateContent ai (story_request b m)) as [resp|e]; simpl; [|reflexivity].
  destruct (text resp) as [[|c s]|]; simpl.
  - split; [discriminate|]. right. split; reflexivity.
  - split; [discriminate|]. left. reflexivity.
  - split; [discriminate|]. right. split; reflexivity.
Qed.


Lemma sendChatMessage_outcome ai hist msg ctx :
  outcome (sendChatMessage ai hist msg ctx) =
  match chats_create ai (chat_params hist) with
  | Throw _ => Return (Some apology)
  | Return chat =>
      match sendMessage chat {| message := msg |} with
      | Throw _ => Return (Some apology)
      | Return r => Return (text r)
      end
  end.
Proof.
  unfold sendChatMessage, outcome, call, try_catch, bind, ret, emit.
  destruct (chats_create ai (chat_params hist)) as [chat|e]; simpl; [|reflexivity].
  destruct (sendMessage chat {| message := msg |}); reflexivity.
Qed.

Lemma sendChatMessage_resolves ai hist msg ctx :
  exists v, outcome (sendChatMessage ai hist msg ctx) = Return v.
Proof.
  rewrite sendChatMessage_outcome.
  destruct (chats_create ai (chat_params hist)) as [chat|e]; [|eauto].
  destruct (sendMessage chat {| message := msg |}); eauto.
Qed.

(** C10. The third argument of [sendChatMessage] has no influence:
    absent, null or any image, the requests made and the value
    returned are the same. *)
Theorem sendChatMessage_ignores_imageContext :
  forall ai hist msg ctx1 ctx2,
    sendChatMessage ai hist msg ctx1 = sendChatMessage ai hist msg ctx2.
Proof. reflexivity. Qed.

Lemma no_payload_no_audio resp :
  audio_payloads resp = [] -> truthy_opt (base64Audio resp) = false.
Proof.
  unfold audio_payloads, base64Audio, first, chain.
  destruct (candidates resp) as [[|c cs]|]; try reflexivity.
  simpl. unfold candidate_payloads at 1.
  destruct (content c) as [c'|]; [|reflexivity].
  destruct (parts c') as [[|p ps]|]; try reflexivity.
  simpl. unfold part_payloads at 1, part_data.
  destruct (inlineData p) as [bl|]; [|reflexivity].
  destruct (blob_data bl) as [d|]; [|reflexivity].
  simpl. destruct (truthy d) eqn:E; [discriminate|].
  reflexivity.
Qed.

(** C3. When the speech endpoint answers with a response that holds
    no non-empty inline payload in any part of any candidate,
    [generateSpeech] resolves to null for every text; it does not
    reject, and it creates no audio context. *)
Theorem generateSpeech_null_without_audio :
  forall ai utils txt resp,
    models_generateContent ai (speech_request txt) = Return resp ->
    audio_payloads resp = [] ->
    outcome (generateSpeech ai utils txt) = Return None /\
    contexts (trace (generateSpeech ai utils txt)) = [].
Proof.
  intros ai utils txt resp Hresp Hnone.
  apply no_payload_no_audio in Hnone.
  unfold generateSpeech, outcome, trace, call, try_catch, bind, ret, emit, lift.
  rewrite Hresp. simpl.
  destruct (base64Audio resp) as [b|]; simpl in *; [|split; reflexivity].
  rewrite Hnone. simpl. split; reflexivity.
Qed.

Lemma generateSpeech_null_without_audio_witness :
  outcome (generateSpeech silent_ai echo_utils "A quiet morning.") = Return None /\
  contexts (trace (generateSpeech silent_ai echo_utils "A quiet morning.")) = [].
Proof.
  apply (generateSpeech_null_without_audio silent_ai echo_utils "A quiet morning."
           (resp := {| candidates := None; text := None |}));
    reflexivity.
Defined.

(** C9. When the speech endpoint answers with a payload that
    [decodeBase64] accepts, [generateSpeech] creates one audio
    context, at 24000 Hz, and resolves to what [decodeAudioData]
    makes of the decoded bytes in that context. *)
Theorem generateSpeech_decodes_at_24000 :
  forall ai utils txt resp b bytes,
    models_generateContent ai (speech_request txt) = Return resp ->
    base64Audio resp = Some b -> truthy b = true ->
    decodeBase64 utils b = Return bytes ->
    contexts (trace (generateSpeech ai utils txt)) = [24000%N] /\
    exists audioContext,
      sampleRate audioContext = 24000%N /\
      match decodeAudioData utils bytes audioContext with
      | Return buffer => outcome (generateSpeech ai utils txt) = Return (Some buffer)
      | Throw e => outcome (generateSpeech ai utils txt) = Throw e
      end.
Proof.
  intros ai utils txt resp b bytes Hresp Hb Ht Hdec.
  unfold generateSpeech, outcome, trace, call, try_catch, bind, ret, emit, lift, throw.
  rewrite Hresp. simpl. rewrite Hb, Ht. simpl. rewrite Hdec.
  split.
  - destruct (decodeAudioData utils bytes _); reflexivity.
  - exists {| sampleRate := 24000 |}. split; [reflexivity|].
    destruct (decodeAudioData utils bytes _); reflexivity.
Qed.

Lemma generateSpeech_decodes_at_24000_witness :
  contexts (trace (generateSpeech speaking_ai echo_utils "A quiet morning.")) = [24000%N] /\
  exists audioContext,
    sampleRate audioContext = 24000%N /\
    match decodeAudioData echo_utils [4%N] audioContext with
    | Return buffer =>
        outcome (generateSpeech speaking_ai echo_utils "A quiet morning.")
        = Return (Some buffer)
    | Throw e =>
        outcome (generateSpeech speaking_ai echo_utils "A quiet morning.") = Throw e
    end.
Proof.
  apply (generateSpeech_decodes_at_24000 speaking_ai echo_utils "A quiet morning."
           (resp := audio_response "AAEC") (b := "AAEC"));
    reflexivity.
Defined.

(* ================================================================== *)
(** * Properties of the chat panel *)

Section ChatFacts.
Import ChatUI.

Lemma blocked_false s :
  blocked s = false <-> truthy (trim (input s)) = true /\ isLoading s = false.
Proof.
  unfold blocked. rewrite orb_false_iff, negb_false_iff. tauto.
Qed.

Lemma apiHistory_length s : length (apiHistory s) = length (messages s).
Proof. unfold apiHistory. apply length_map. Qed.

(** The transcript of a reachable state starts with the greeting and
    grows by pairs: its parity tells whether a send is in flight. *)
Lemma reachable_shape s :
  reachable s ->
  exists rest, messages s = greeting :: rest /\
               Nat.even (length rest) = negb (isLoading s).
Proof.
  induction 1 as [|v s _ IH|now s _ IH Hb|now' ai ctx h m s _ IH Hl].
  - exists []. split; reflexivity.
  - exact IH.
  - destruct IH as (rest & Hm & Hp).
    apply blocked_false in Hb as [_ Hl]. rewrite Hl in Hp.
    exists (rest ++ [ {| id := toString now; role := user;
                         msg_text := Some (input s) |} ]).
    cbn [handleSend_begin messages isLoading]. rewrite Hm. split; [reflexivity|].
    rewrite length_app. cbn [length].
    rewrite Nat.add_1_r, Nat.even_succ, <- Nat.negb_even, Hp. reflexivity.
  - destruct IH as (rest & Hm & Hp). rewrite Hl in Hp.
    destruct (sendChatMessage_resolves ai h m ctx) as (v & Hv).
    rewrite Hv. cbn [handleSend_settle messages isLoading]. rewrite Hm.
    exists (rest ++ [ {| id := toString (now' + 1); role := model; msg_text := v |} ]).
    split; [reflexivity|].
    rewrite length_app. cbn [length].
    rewrite Nat.add_1_r, Nat.even_succ, <- Nat.negb_even, Hp. reflexivity.
Qed.

Lemma reachable_first_turn s :
  reachable s -> (length (messages s) = 1 <-> messages s = [greeting]).
Proof.
  intros H. destruct (reachable_shape H) as (rest & Hm & _).
  rewrite Hm. split.
  - destruct rest; [reflexivity|discriminate].
  - intros E. injection E as ->. reflexivity.
Qed.

Lemma length_append (a b : string) :
  String.length (a ++ b) = String.length a + String.length b.
Proof. induction a as [|c a IH]; simpl; [reflexivity|now rewrite IH]. Qed.

Lemma grounded_is_prefixed ctx inp : grounded ctx inp <> inp.
Proof.
  unfold grounded. intros E.
  apply (f_equal String.length) in E.
  rewrite !length_append in E. simpl in E. lia.
Qed.

Lemma handleSend_trace ai ctx now now' s chat :
  blocked s = false ->
  chats_create ai (chat_params (apiHistory s)) = Return chat ->
  histories (fst (handleSend ai ctx now now' s)) = [apiHistory s] /\
  sent (fst (handleSend ai ctx now now' s)) = [finalInput ctx s].
Proof.
  intros Hb Hc. unfold handleSend. rewrite Hb. simpl.
  unfold handleSend_call, sendChatMessage, trace, call, try_catch, bind, ret, emit.
  rewrite Hc. simpl.
  destruct (sendMessage chat _); split; reflexivity.
Qed.

(** C1, as the code has it. When a send goes out (the input is not
    blank, no send is in flight, the session is created), the history
    transmitted is the whole transcript, greeting included, so it is
    never empty. The text transmitted is the grounding clause around
    the story followed by the input exactly when the transcript holds
    the greeting alone and the story is non-empty; in every other
    case it is the input, unmodified. *)
Theorem handleSend_grounds_first_turn :
  forall ai ctx now now' s chat,
    reachable s ->
    blocked s = false ->
    chats_create ai (chat_params (apiHistory s)) = Return chat ->
    let tr := fst (handleSend ai ctx now now' s) in
    histories tr = [apiHistory s] /\
    apiHistory s <> [] /\
    (forall S, ctx = Some S -> truthy S = true -> messages s = [greeting] ->
               sent tr = [grounded S (input s)]) /\
    (messages s <> [greeting] \/ truthy_opt ctx = false -> sent tr = [input s]).
Proof.
  intros ai ctx now now' s chat Hr Hb Hc tr.
  destruct (handleSend_trace ai ctx now now' s Hb Hc) as [Hh Hs].
  fold tr in Hh, Hs.
  destruct (reachable_shape Hr) as (rest & Hm & _).
  repeat split.
  - exact Hh.
  - intros E. apply (f_equal (@length _)) in E.
    rewrite apiHistory_length, Hm in E. discriminate.
  - intros S -> HS Hg. rewrite Hs. unfold finalInput.
    rewrite Hg, HS. reflexivity.
  - intros Hcase. rewrite Hs. unfold finalInput.
    destruct ctx as [S|]; [|reflexivity].
    destruct (Nat.eqb_spec (length (messages s)) 1) as [E|E]; [|reflexivity].
    apply (reachable_first_turn Hr) in E.
    destruct Hcase as [Hn|Hf]; [contradiction|].
    simpl in Hf. rewrite Hf. reflexivity.
Qed.

Lemma handleSend_grounds_first_turn_witness :
  let tr := fst (handleSend (chatty_ai "Green.") (Some "A dragon slept.") 1000 1001
                   dragon_question) in
  histories tr = [apiHistory dragon_question] /\
  apiHistory dragon_question <> [] /\
  (forall S, Some "A dragon slept." = Some S -> truthy S = true ->
             messages dragon_question = [greeting] ->
             sent tr = [grounded S (input dragon_question)]) /\
  (messages dragon_question <> [greeting] \/ truthy_opt (Some "A dragon slept.") = false ->
   sent tr = [input dragon_question]).
Proof.
  apply (handleSend_grounds_first_turn (chatty_ai "Green.") (Some "A dragon slept.")
           1000 1001 (s := dragon_question)
           (chat := {| sendMessage := fun _ =>
                         Return {| candidates := None; text := Some "Green." |} |})).
  - apply r_typing, r_initial.
  - reflexivity.
  - reflexivity.
Defined.

(** C1, as stated, fails: on the first turn the grounding clause is
    sent although the history that goes with it is not empty (it
    holds the greeting); and with an empty transcript the message
    would go out without the clause. *)
Lemma grounding_needs_nonempty_history :
  (let tr := fst (handleSend (chatty_ai "Green.") (Some "A dragon slept.") 1000 1001
                    dragon_question) in
   sent tr = [grounded "A dragon slept." "What color is the dragon?"] /\
   exists greeting_turn, histories tr = [[greeting_turn]]) /\
  (let empty := {| messages := []; input := "What color is the dragon?";
                   isLoading := false |} in
   let tr := fst (handleSend (chatty_ai "Green.") (Some "A dragon slept.") 1000 1001
                    empty) in
   histories tr = [[]] /\ sent tr = ["What color is the dragon?"]).
Proof.
  split; simpl.
  - split; [reflexivity|]. eexists. reflexivity.
  - split; reflexivity.
Qed.

(** C6, as the code has it. When the input is not blank and no send
    is in flight, one [handleSend] leaves the N earlier entries as
    they were and appends two: the user's entry holding the input,
    then the model's entry holding what [sendChatMessage] resolved
    to. The loading flag is down again afterwards. *)
Theorem handleSend_appends_two :
  forall ai ctx now now' s,
    truthy (trim (input s)) = true ->
    isLoading s = false ->
    let s' := snd (handleSend ai ctx now now' s) in
    exists reply,
      outcome (handleSend_call ai ctx s) = Return reply /\
      messages s' = messages s ++
        [ {| id := toString now; role := user; msg_text := Some (input s) |};
          {| id := toString (now' + 1); role := model; msg_text := reply |} ] /\
      length (messages s') = length (messages s) + 2 /\
      firstn (length (messages s)) (messages s') = messages s /\
      isLoading s' = false.
Proof.
  intros ai ctx now now' s Hi Hl s'.
  assert (Hb : blocked s = false) by (apply blocked_false; auto).
  destruct (sendChatMessage_resolves ai (apiHistory s) (finalInput ctx s) Absent)
    as (reply & Hr).
  exists reply. subst s'. unfold handleSend. rewrite Hb.
  unfold handleSend_call in *. simpl. rewrite Hr. simpl.
  rewrite <- app_assoc. simpl.
  repeat split; auto.
  - rewrite length_app. reflexivity.
  - rewrite firstn_app, Nat.sub_diag, firstn_all. simpl. apply app_nil_r.
Qed.

Lemma handleSend_appends_two_witness :
  let s' := snd (handleSend (chatty_ai "Green.") (Some "A dragon slept.") 1000 1001
                   dragon_question) in
  exists reply,
    outcome (handleSend_call (chatty_ai "Green.") (Some "A dragon slept.") dragon_question)
    = Return reply /\
    messages s' = messages dragon_question ++
      [ {| id := toString 1000; role := user; msg_text := Some (input dragon_question) |};
        {| id := toString (1001 + 1); role := model; msg_text := reply |} ] /\
    length (messages s') = length (messages dragon_question) + 2 /\
    firstn (length (messages dragon_question)) (messages s') = messages dragon_question /\
    isLoading s' = false.
Proof.
  apply (handleSend_appends_two (chatty_ai "Green.") (Some "A dragon slept.") 1000 1001
           dragon_question); reflexivity.
Defined.

(** C6, as stated, fails: with a send in flight, a non-blank input
    and one more [handleSend] (the Enter key is not disabled) leave
    the transcript at N entries. *)
Lemma handleSend_blocked_while_loading :
  truthy (trim (input typing_while_loading)) = true /\
  snd (handleSend (chatty_ai "Green.") (Some "A dragon slept.") 2000 2001
         typing_while_loading) = typing_while_loading /\
  length (messages (snd (handleSend (chatty_ai "Green.") (Some "A dragon slept.")
                           2000 2001 typing_while_loading)))
  <> length (messages typing_while_loading) + 2.
Proof.
  repeat split. simpl. discriminate.
Qed.

End ChatFacts.

(* ================================================================== *)
(** * Properties of the story screen *)

Section AppFacts.
Import App.

Lemma generateStory_nonempty ai b m s :
  outcome (generateStoryFromImage ai b m) = Return s -> truthy s = true.
Proof.
  unfold generateStoryFromImage, outcome, call, try_catch, bind, ret, emit, throw.
  destruct (models_generateContent ai (story_request b m)) as [resp|e]; simpl;
    [|discriminate].
  intros E. injection E as <-.
  destruct (text resp) as [[|c t]|]; reflexivity.
Qed.

(** X17. From a StoryGenerating screen on which no audio is playing,
    however the call to [generateStoryFromImage] ends, the handler
    leaves the screen in StoryReady with the generating flag down:
    the story is the generated text when the call resolved and the
    fixed unable-to-read-the-stars message when it rejected. *)
Theorem storyGenerating_always_ready :
  forall ai base64 type s,
    phase s = Some StoryGenerating ->
    let r := outcome (generateStoryFromImage ai base64 type) in
    let s' := handleImageSelected_settle r s in
    phase s' = Some StoryReady /\
    isGenerating s' = false /\
    match r with
    | Return generatedStory => story s' = generatedStory
    | Throw _ => story s' = unreadable
    end.
Proof.
  intros ai base64 type s Hp r s'.
  assert (Ht : truthy (story s') = true).
  { subst s'. simpl. destruct r as [t|e] eqn:E; [|reflexivity].
    exact (generateStory_nonempty ai base64 type E). }
  unfold phase in *. subst s'.
  destruct (truthy_opt (image s)) eqn:Hi; simpl in *; rewrite ?Hi in *;
    [|discriminate].
  destruct (isGenerating s), (isPlaying s); try discriminate;
    try (destruct (truthy (story s)); discriminate).
  simpl in *. rewrite Ht. split; [reflexivity|]. split; [reflexivity|].
  destruct r; reflexivity.
Qed.

Lemma storyGenerating_always_ready_witness :
  let r := outcome (generateStoryFromImage offline_ai png_upload "image/png") in
  let s' := handleImageSelected_settle r generating in
  phase s' = Some StoryReady /\
  isGenerating s' = false /\
  match r with
  | Return generatedStory => story s' = generatedStory
  | Throw _ => story s' = unreadable
  end.
Proof.
  apply (storyGenerating_always_ready offline_ai png_upload "image/png" generating).
  reflexivity.
Defined.


(** C8, on the code. A reset that arrives while a speech call is in
    flight does clear the cache, but the call's continuation then
    fills it again: the session ends with a cached buffer, nothing on
    display, and the buffer is the synthesis of the story that was
    reset away. The state is reachable and breaks the invariant. *)
Theorem stale_audio_after_reset :
  let w := run reset_during_synthesis boot in
  reachable w /\
  story (ui w) = EmptyString /\
  image (ui w) = None /\
  lastSynth w = Some "Once upon a time." /\
  (exists b, audioBuffer (ui w) = Some b) /\
  isPlaying (ui w) = true /\
  ~ cache_fresh w.
Proof.
  intros w. repeat split.
  - exists reset_during_synthesis. reflexivity.
  - eexists. reflexivity.
  - intros H. specialize (H _ eq_refl). discriminate.
Qed.

End AppFacts.

(* ================================================================== *)
(** * Further properties: the data-URI header *)

Section HeaderFacts.

Lemma match_at_lits_inv p q s r :
  match_at (lits p ++ q) s = Some r ->
  exists s', s = (p ++ s')%string /\ match_at q s' = Some r.
Proof.
  revert s. induction p as [|c p IH]; simpl; intros s H.
  - exists s. split; [reflexivity|exact H].
  - destruct s as [|c' s]; [discriminate|].
    destruct (Ascii.eqb_spec c c') as [->|]; [|discriminate].
    destruct (IH _ H) as (s' & -> & Hq).
    exists s'. split; [reflexivity|exact Hq].
Qed.

Lemma word_plus_inv k s r :
  word_plus k s = Some r ->
  exists sub s', s = (sub ++ s')%string /\ word_subtype sub = true /\ k s' = Some r.
Proof.
  unfold word_subtype.
  induction s as [|c s IH]; simpl; [discriminate|].
  destruct (is_word c) eqn:Hc; [|discriminate].
  destruct (word_plus k s) as [r0|] eqn:Hw.
  - intros E. injection E as ->.
    destruct (IH eq_refl) as (sub & s' & -> & Hs & Hk).
    exists (String c sub), s'. simpl. rewrite Hc.
    apply andb_true_iff in Hs as [_ Hs]. rewrite Hs. auto.
  - intros Hk. exists (String c EmptyString), s. simpl. rewrite Hc. auto.
Qed.

(** X1. [cleanBase64] changes nothing but a header: its result is
    the input itself, or the input is a well-formed header
    "data:image/<word subtype>;base64," followed by the result. *)
Theorem cleanBase64_shape :
  forall s,
    cleanBase64 s = s \/
    exists sub, word_subtype sub = true /\
                s = ("data:image/" ++ sub ++ ";base64," ++ cleanBase64 s)%string.
Proof.
  intros s. unfold cleanBase64, replace_anchored.
  destruct (match_at header_pattern s) as [r|] eqn:Hm; [right|left; reflexivity].
  unfold header_pattern in Hm.
  apply match_at_lits_inv in Hm as (s1 & -> & Hm).
  change (match_at ([WordPlus] ++ lits ";base64,"))
    with (word_plus (match_at (lits ";base64,"))) in Hm.
  apply word_plus_inv in Hm as (sub & s2 & -> & Hsub & Hk).
  rewrite <- (app_nil_r (lits ";base64,")) in Hk.
  apply match_at_lits_inv in Hk as (s3 & -> & Hk).
  simpl in Hk. injection Hk as ->.
  exists sub. split; [exact Hsub|reflexivity].
Qed.

Lemma tail_needs_semicolon s :
  match s with String c _ => c <> ";"%char | EmptyString => True end ->
  match_at (lits ";base64,") s = None.
Proof.
  destruct s as [|c s]; [reflexivity|].
  intros Hc. change (lits ";base64,") with (Lit ";"%char :: lits "base64,").
  cbn [match_at]. destruct (Ascii.eqb_spec ";"%char c); [congruence|reflexivity].
Qed.

Lemma word_is_not_semicolon c : is_word c = true -> c <> ";"%char.
Proof. intros H ->. discriminate. Qed.

Lemma word_plus_no_match w c rest :
  word_chars w = true -> is_word c = false -> c <> ";"%char ->
  word_plus (match_at (lits ";base64,")) (w ++ String c rest)%string = None.
Proof.
  intros Hw Hc Hsemi. induction w as [|a w IH].
  - simpl. now rewrite Hc.
  - cbn [append word_plus]. simpl in Hw.
    apply andb_true_iff in Hw as [Ha Hw]. rewrite Ha, (IH Hw).
    apply tail_needs_semicolon.
    destruct w as [|a' w']; simpl; [exact Hsemi|].
    simpl in Hw. apply andb_true_iff in Hw as [Ha' _].
    now apply word_is_not_semicolon.
Qed.

Lemma cleanBase64_no_match w c rest :
  word_chars w = true -> is_word c = false -> c <> ";"%char ->
  cleanBase64 ("data:image/" ++ w ++ String c rest)%string
  = ("data:image/" ++ w ++ String c rest)%string.
Proof.
  intros Hw Hc Hsemi.
  unfold cleanBase64, replace_anchored, header_pattern.
  rewrite match_at_lits_app.
  change (match_at ([WordPlus] ++ lits ";base64,"))
    with (word_plus (match_at (lits ";base64,"))).
  now rewrite word_plus_no_match.
Qed.

(** X2. A data-URI header whose subtype runs into a character that is
    neither a word character nor the semicolon (image/svg+xml,
    image/x-icon, image/vnd.microsoft.icon) is not recognised: the
    string goes through unchanged, header included. *)
Theorem cleanBase64_keeps_odd_subtype :
  forall w c rest,
    word_chars w = true -> is_word c = false -> c <> ";"%char ->
    cleanBase64 ("data:image/" ++ w ++ String c rest)%string
    = ("data:image/" ++ w ++ String c rest)%string.
Proof.
  intros w c rest Hw Hc Hsemi.
  unfold cleanBase64, replace_anchored, header_pattern.
  rewrite match_at_lits_app.
  change (match_at ([WordPlus] ++ lits ";base64,"))
    with (word_plus (match_at (lits ";base64,"))).
  rewrite (word_plus_no_match w rest Hw Hc Hsemi). reflexivity.
Qed.

Lemma cleanBase64_keeps_odd_subtype_witness :
  cleanBase64 ("data:image/" ++ "svg" ++ String "+"%char "xml;base64,PHN2Zz4=")%string
  = ("data:image/" ++ "svg" ++ String "+"%char "xml;base64,PHN2Zz4=")%string.
Proof.
  apply (@cleanBase64_keeps_odd_subtype "svg" "+"%char "xml;base64,PHN2Zz4=").
  - reflexivity.
  - reflexivity.
  - discriminate.
Defined.

End HeaderFacts.

(* ================================================================== *)
(** * Further properties: speech synthesis *)

(** X3. [generateSpeech] resolves to null exactly when the endpoint
    answered and the first part of the first candidate carries no
    non-empty inline data. A payload anywhere else in the response is
    not looked at, and a payload that is there never leads to null. *)
Theorem generateSpeech_null_iff :
  forall ai utils txt,
    outcome (generateSpeech ai utils txt) = Return None <->
    exists resp, models_generateContent ai (speech_request txt) = Return resp /\
                 truthy_opt (base64Audio resp) = false.
Proof.
  intros ai utils txt.
  unfold generateSpeech, outcome, call, try_catch, bind, ret, emit, lift, throw.
  destruct (models_generateContent ai (speech_request txt)) as [resp|e]; simpl.
  - destruct (base64Audio resp) as [b|] eqn:Hp; simpl.
    + destruct (truthy b) eqn:Hb; simpl.
      * split.
        -- destruct (decodeBase64 utils b) as [bytes|e]; simpl; [|discriminate].
           destruct (decodeAudioData utils bytes _); simpl; discriminate.
        -- intros (r & E & Hf). injection E as <-.
           rewrite Hp in Hf. simpl in Hf. congruence.
      * split; [|reflexivity]. intros _. exists resp. rewrite Hp. auto.
    + split; [|reflexivity]. intros _. exists resp. rewrite Hp. auto.
  - split; [discriminate|]. intros (r & E & _). discriminate.
Qed.

(** X4. When [generateSpeech] rejects, the error is the endpoint's
    or a decoder's own, and it has been written to the console under
    the label of the function before being rethrown. *)
Theorem generateSpeech_rethrows :
  forall ai utils txt e,
    outcome (generateSpeech ai utils txt) = Throw e ->
    In (EvConsoleError "Error generating speech:" e) (trace (generateSpeech ai utils txt)) /\
    (models_generateContent ai (speech_request txt) = Throw e \/
     exists resp b,
       models_generateContent ai (speech_request txt) = Return resp /\
       base64Audio resp = Some b /\ truthy b = true /\
       (decodeBase64 utils b = Throw e \/
        exists bytes, decodeBase64 utils b = Return bytes /\
                      decodeAudioData utils bytes {| sampleRate := 24000 |} = Throw e)).
Proof.
  intros ai utils txt e.
  unfold generateSpeech, outcome, trace, call, try_catch, bind, ret, emit, lift, throw.
  destruct (models_generateContent ai (speech_request txt)) as [resp|e0]; simpl.
  - destruct (base64Audio resp) as [b|] eqn:Hb; simpl; [|discriminate].
    destruct (truthy b) eqn:Ht; simpl; [|discriminate].
    destruct (decodeBase64 utils b) as [bytes|e1] eqn:Hd; simpl.
    + destruct (decodeAudioData utils bytes _) as [buf|e2] eqn:Ha; simpl; [discriminate|].
      intros E. injection E as ->. split; [simpl; auto|].
      right. exists resp, b. repeat split; auto. right. exists bytes. auto.
    + intros E. injection E as ->. split; [simpl; auto|].
      right. exists resp, b. repeat split; auto.
  - intros E. injection E as ->. split; [simpl; auto|left; reflexivity].
Qed.

Lemma generateSpeech_rethrows_witness :
  In (EvConsoleError "Error generating speech:" "InvalidCharacterError")
     (trace (generateSpeech speaking_ai broken_utils "A quiet morning.")) /\
  (models_generateContent speaking_ai (speech_request "A quiet morning.")
   = Throw "InvalidCharacterError" \/
   exists resp b,
     models_generateContent speaking_ai (speech_request "A quiet morning.") = Return resp /\
     base64Audio resp = Some b /\ truthy b = true /\
     (decodeBase64 broken_utils b = Throw "InvalidCharacterError" \/
      exists bytes, decodeBase64 broken_utils b = Return bytes /\
                    decodeAudioData broken_utils bytes {| sampleRate := 24000 |}
                    = Throw "InvalidCharacterError")).
Proof.
  apply (@generateSpeech_rethrows speaking_ai broken_utils "A quiet morning."
           "InvalidCharacterError").
  reflexivity.
Defined.

(* ================================================================== *)
(** * Further properties: the chat panel *)

Section MoreChatFacts.
Import ChatUI.

Lemma trimStart_blank s : all_space s = true -> trimStart s = EmptyString.
Proof.
  induction s as [|c s IH]; simpl; [reflexivity|].
  intros H. apply andb_true_iff in H as [Hc Hs]. rewrite Hc. auto.
Qed.

Lemma trimStart_keeps s :
  all_space s = false ->
  exists c s', trimStart s = String c s' /\ is_space c = false.
Proof.
  induction s as [|c s IH]; simpl; [discriminate|].
  destruct (is_space c) eqn:Hc; simpl; [exact IH|].
  intros _. exists c, s. auto.
Qed.

Lemma trimEnd_keeps c s : is_space c = false -> truthy (trimEnd (String c s)) = true.
Proof.
  intros Hc. simpl. rewrite Hc. destruct (trimEnd s); reflexivity.
Qed.

(** [trim] leaves nothing exactly when there was only white space. *)
Lemma trim_blank s : truthy (trim s) = negb (all_space s).
Proof.
  unfold trim. destruct (all_space s) eqn:H.
  - rewrite (trimStart_blank s H). reflexivity.
  - destruct (trimStart_keeps s H) as (c & s' & -> & Hc).
    now rewrite trimEnd_keeps.
Qed.

(** X5. An input of white space only, or a send already in flight,
    makes [handleSend] do nothing at all: no request, no new entry,
    the draft left in the field. *)
Theorem handleSend_ignores_blank :
  forall ai ctx now now' s,
    all_space (input s) = true \/ isLoading s = true ->
    handleSend ai ctx now now' s = ([], s).
Proof.
  intros ai ctx now now' s H. unfold handleSend, blocked.
  rewrite trim_blank, negb_involutive.
  destruct H as [-> | ->]; [reflexivity|].
  now rewrite orb_true_r.
Qed.

Lemma handleSend_ignores_blank_witness :
  handleSend (chatty_ai "Green.") (Some "A dragon slept.") 1000 1001 blank_draft
  = ([], blank_draft).
Proof.
  apply (handleSend_ignores_blank (chatty_ai "Green.") (Some "A dragon slept.")
           1000 1001 blank_draft).
  left. reflexivity.
Defined.

(** X6. When the chat endpoint fails on a send that went out, the
    transcript still grows by two: the user's entry, then a model
    entry whose text is the fixed apology, and the panel is ready for
    the next input. *)
Theorem handleSend_failure_is_an_apology :
  forall ai ctx now now' s,
    all_space (input s) = false ->
    isLoading s = false ->
    chat_fails ai (apiHistory s) (finalInput ctx s) ->
    snd (handleSend ai ctx now now' s) =
    {| messages := messages s ++
         [ {| id := toString now; role := user; msg_text := Some (input s) |};
           {| id := toString (now' + 1); role := model; msg_text := Some apology |} ];
       input := EmptyString;
       isLoading := false |}.
Proof.
  intros ai ctx now now' s Hi Hl Hf.
  unfold handleSend, blocked. rewrite trim_blank, Hi, Hl. simpl.
  unfold handleSend_call, handleSend_settle, handleSend_begin. simpl.
  rewrite sendChatMessage_outcome. unfold chat_fails in Hf.
  destruct (chats_create ai (chat_params (apiHistory s))) as [chat|e].
  - destruct (sendMessage chat _); [contradiction|].
    now rewrite <- app_assoc.
  - now rewrite <- app_assoc.
Qed.

Lemma handleSend_failure_is_an_apology_witness :
  snd (handleSend silent_ai (Some "A dragon slept.") 1000 1001 dragon_question) =
  {| messages := messages dragon_question ++
       [ {| id := toString 1000; role := user;
            msg_text := Some (input dragon_question) |};
         {| id := toString (1001 + 1); role := model; msg_text := Some apology |} ];
     input := EmptyString;
     isLoading := false |}.
Proof.
  apply (handleSend_failure_is_an_apology silent_ai (Some "A dragon slept.") 1000 1001
           dragon_question).
  - reflexivity.
  - reflexivity.
  - exact I.
Defined.

Lemma alternating_snoc expect l m :
  alternating expect (l ++ [m]) =
  alternating expect l &&
  role_eqb (role m) (if Nat.even (length l) then expect else flip expect).
Proof.
  revert expect. induction l as [|x l IH]; intros expect.
  - simpl. now rewrite andb_true_r.
  - cbn [app alternating length]. rewrite IH, Nat.even_succ, <- Nat.negb_even.
    rewrite <- andb_assoc. f_equal. f_equal.
    destruct (Nat.even (length l)), expect; reflexivity.
Qed.

(** X7. In every state the panel can reach, the transcript opens
    with the model's greeting and its entries take turns, model and
    user; it holds an odd number of entries (so it ends on a model
    entry) exactly when no send is in flight. *)
Theorem transcript_alternates :
  forall s,
    reachable s ->
    hd_error (messages s) = Some greeting /\
    alternating model (messages s) = true /\
    Nat.odd (length (messages s)) = negb (isLoading s).
Proof.
  intros s Hr.
  assert (Hodd : Nat.odd (length (messages s)) = negb (isLoading s)).
  { destruct (reachable_shape Hr) as (rest & -> & Hp).
    cbn [length]. now rewrite Nat.odd_succ. }
  destruct (reachable_shape Hr) as (rest & Hm & _).
  split; [now rewrite Hm|]. split; [|exact Hodd]. clear rest Hm.
  induction Hr as [|v s Hr IH|now s Hr IH Hb|now' ai ctx h m s Hr IH Hl].
  - reflexivity.
  - exact (IH Hodd).
  - apply blocked_false in Hb as [_ Hl].
    assert (Ho : Nat.odd (length (messages s)) = true).
    { destruct (reachable_shape Hr) as (rest & -> & Hp).
      cbn [length]. now rewrite Nat.odd_succ, Hp, Hl. }
    cbn [handleSend_begin messages]. rewrite alternating_snoc.
    rewrite IH by now rewrite Ho, Hl.
    rewrite <- Nat.negb_odd, Ho. reflexivity.
  - assert (Ho : Nat.odd (length (messages s)) = false).
    { destruct (reachable_shape Hr) as (rest & -> & Hp).
      cbn [length]. now rewrite Nat.odd_succ, Hp, Hl. }
    destruct (sendChatMessage_resolves ai h m ctx) as (v & Hv). rewrite Hv.
    cbn [handleSend_settle messages]. rewrite alternating_snoc.
    rewrite IH by now rewrite Ho, Hl.
    rewrite <- Nat.negb_odd, Ho. reflexivity.
Qed.

Lemma transcript_alternates_witness :
  hd_error (messages dragon_question) = Some greeting /\
  alternating model (messages dragon_question) = true /\
  Nat.odd (length (messages dragon_question)) = negb (isLoading dragon_question).
Proof.
  apply (transcript_alternates (s := dragon_question)).
  apply r_typing, r_initial.
Defined.

Lemma toString_inj a b : toString a = toString b -> a = b.
Proof.
  unfold toString. intros E.
  assert (Hn : forall n, N.to_uint n <> Decimal.Nil).
  { intros [|p]; [discriminate|]. apply DecimalPos.Unsigned.to_uint_nonnil. }
  apply DecimalN.Unsigned.to_uint_inj.
  pose proof (NilZero.usu _ (Hn a)) as Ha.
  pose proof (NilZero.usu _ (Hn b)) as Hb.
  rewrite E in Ha. congruence.
Qed.

(** X8. The two entries appended by one send carry different ids as
    long as the clock has not gone backwards between the two
    readings. *)
Theorem handleSend_ids_differ :
  forall ai ctx now now' s,
    all_space (input s) = false ->
    isLoading s = false ->
    (now <= now')%N ->
    exists u b,
      messages (snd (handleSend ai ctx now now' s)) = messages s ++ [u; b] /\
      id u <> id b.
Proof.
  intros ai ctx now now' s Hi Hl Hle.
  unfold handleSend, blocked. rewrite trim_blank, Hi, Hl. simpl.
  destruct (sendChatMessage_resolves ai (apiHistory s) (finalInput ctx s) Absent)
    as (v & Hv).
  unfold handleSend_call. rewrite Hv. simpl.
  eexists _, _. rewrite <- app_assoc. split; [reflexivity|].
  simpl. intros E. apply toString_inj in E. lia.
Qed.

Lemma handleSend_ids_differ_witness :
  exists u b,
    messages (snd (handleSend (chatty_ai "Green.") None 1000 1000 dragon_question))
    = messages dragon_question ++ [u; b] /\
    id u <> id b.
Proof.
  apply (handleSend_ids_differ (chatty_ai "Green.") None (now := 1000) (now' := 1000)
           dragon_question).
  - reflexivity.
  - reflexivity.
  - apply N.le_refl.
Defined.

End MoreChatFacts.

(* ================================================================== *)
(** * Further properties: from the file picker to the request *)

Section UploadFacts.
Import Upload App.

Lemma append_assoc (a b c : string) : ((a ++ b) ++ c = a ++ (b ++ c))%string.
Proof. induction a as [|x a IH]; simpl; [reflexivity|now rewrite IH]. Qed.

Lemma startsWith_append p s : startsWith (p ++ s) p = true.
Proof.
  induction p as [|c p IH]; simpl; [reflexivity|].
  now rewrite Ascii.eqb_refl.
Qed.

Lemma story_trace_fields ai b m :
  data_sent (trace (generateStoryFromImage ai b m)) = [cleanBase64 b] /\
  mimes_sent (trace (generateStoryFromImage ai b m)) = [m].
Proof.
  unfold generateStoryFromImage, trace, call, try_catch, bind, ret, emit, throw.
  destruct (models_generateContent ai (story_request b m)); split; reflexivity.
Qed.

(** X9. A picked file of type image/<word subtype> gets past the
    check of the upload widget, and selecting it sends one request
    whose inline part carries the file's own base64 bytes (no header)
    and the file's own MIME type; the screen keeps the whole data URL
    as the image on display. *)
Theorem upload_sends_bare_payload :
  forall ai f sub s,
    file_type f = ("image/" ++ sub)%string ->
    word_subtype sub = true ->
    exists base64,
      processFile (Some f) = ([], Some (base64, file_type f)) /\
      data_sent (fst (handleImageSelected ai base64 (file_type f) s)) = [file_base64 f] /\
      mimes_sent (fst (handleImageSelected ai base64 (file_type f) s)) = [file_type f] /\
      image (snd (handleImageSelected ai base64 (file_type f) s)) = Some (readAsDataURL f).
Proof.
  intros ai f sub s Ht Hsub.
  exists (readAsDataURL f). unfold processFile.
  rewrite Ht at 1. rewrite startsWith_append. simpl negb. cbv iota.
  split; [reflexivity|].
  unfold handleImageSelected. cbn [fst snd].
  destruct (story_trace_fields ai (readAsDataURL f) (file_type f)) as [Hd Hm].
  rewrite Hd, Hm. repeat split.
  unfold readAsDataURL. rewrite Ht.
  change ("data:" ++ ("image/" ++ sub) ++ ";base64," ++ file_base64 f)%string
    with ("data:image/" ++ sub ++ ";base64," ++ file_base64 f)%string.
  now rewrite (cleanBase64_strips sub (file_base64 f) Hsub).
Qed.

Lemma upload_sends_bare_payload_witness :
  exists base64,
    processFile (Some png_file) = ([], Some (base64, file_type png_file)) /\
    data_sent (fst (handleImageSelected silent_ai base64 (file_type png_file) mounted))
    = [file_base64 png_file] /\
    mimes_sent (fst (handleImageSelected silent_ai base64 (file_type png_file) mounted))
    = [file_type png_file] /\
    image (snd (handleImageSelected silent_ai base64 (file_type png_file) mounted))
    = Some (readAsDataURL png_file).
Proof.
  apply (@upload_sends_bare_payload silent_ai png_file "png" mounted); reflexivity.
Defined.

(** X10. A picked file whose image subtype holds a character outside
    the word characters (image/svg+xml) also gets past the check of
    the upload widget, but the request then carries the whole data
    URL, header included, as its data. *)
Theorem upload_odd_subtype_keeps_header :
  forall ai f w c rest s,
    file_type f = ("image/" ++ w ++ String c rest)%string ->
    word_chars w = true -> is_word c = false -> c <> ";"%char ->
    exists base64,
      processFile (Some f) = ([], Some (base64, file_type f)) /\
      data_sent (fst (handleImageSelected ai base64 (file_type f) s))
      = [readAsDataURL f].
Proof.
  intros ai f w c rest s Ht Hw Hc Hsemi.
  exists (readAsDataURL f). unfold processFile.
  rewrite Ht at 1. rewrite startsWith_append. simpl negb. cbv iota.
  split; [reflexivity|].
  unfold handleImageSelected. cbn [fst snd].
  destruct (story_trace_fields ai (readAsDataURL f) (file_type f)) as [Hd _].
  rewrite Hd. f_equal.
  unfold readAsDataURL. rewrite Ht.
  change ("data:" ++ ("image/" ++ w ++ String c rest) ++ ";base64," ++ file_base64 f)%string
    with ("data:image/" ++ (w ++ String c rest) ++ ";base64," ++ file_base64 f)%string.
  rewrite append_assoc. cbn [append].
  now apply cleanBase64_no_match.
Qed.

Lemma upload_odd_subtype_keeps_header_witness :
  exists base64,
    processFile (Some svg_file) = ([], Some (base64, file_type svg_file)) /\
    data_sent (fst (handleImageSelected silent_ai base64 (file_type svg_file) mounted))
    = [readAsDataURL svg_file].
Proof.
  apply (@upload_odd_subtype_keeps_header silent_ai svg_file "svg" "+"%char "xml" mounted).
  - reflexivity.
  - reflexivity.
  - reflexivity.
  - discriminate.
Defined.

End UploadFacts.

(* ================================================================== *)
(** * Further properties: reading aloud and the cache *)

Section AudioFacts.
Import App.

Lemma in_remove_nth {A} k (l : list A) x : In x (remove_nth k l) -> In x l.
Proof.
  revert k. induction l as [|y l IH]; intros k; [destruct k; auto|].
  destruct k as [|k]; simpl; [auto|].
  intros [->|H]; [auto|right; eauto].
Qed.

Lemma playBuffer_keeps b s :
  story (snd (playBuffer b s)) = story s /\
  audioBuffer (snd (playBuffer b s)) = audioBuffer s.
Proof. unfold playBuffer. destruct (audioContextRef s); split; reflexivity. Qed.

Lemma settled_boot : settled boot.
Proof.
  repeat split; simpl; try (intros; contradiction); auto.
  intros b H. discriminate.
Qed.

Ltac crush :=
  repeat split; simpl in *; intros;
  try contradiction; try discriminate; try congruence; auto.

Lemma settled_step a w : settled w -> calm a w = true -> settled (step a w).
Proof.
  intros Hw Hcalm. pose proof Hw as (Hlen & Hgen & Hsp & Hfresh).
  unfold settled, cache_fresh in *.
  destruct a as [b64 ty|k ai| |k ai utils| | ]; simpl in Hcalm |- *.
  - (* SelectImage *)
    apply andb_true_iff in Hcalm as [Hs1 Hs2].
    destruct (storyCalls w); [|discriminate].
    destruct (speechCalls w) eqn:Es; [|discriminate].
    crush.
  - (* StorySettles *)
    destruct (nth_error (storyCalls w) k) as [[b64 ty]|] eqn:En; [|exact Hw].
    assert (Hne : storyCalls w <> []).
    { intros E. rewrite E in En. destruct k; discriminate. }
    destruct (Hgen Hne) as (_ & Hbuf & Hnone).
    assert (Hrem : remove_nth k (storyCalls w) = []).
    { destruct (storyCalls w) as [|x [|y l]]; [contradiction| |simpl in Hlen; lia].
      destruct k as [|k]; [reflexivity|]. destruct k; discriminate. }
    simpl. rewrite Hrem, Hnone. crush.
  - (* ClickReadAloud *)
    unfold handleReadAloud_begin.
    destruct (isPlaying (ui w)) eqn:Ep; [exact Hw|].
    destruct (truthy (story (ui w))) eqn:Et; simpl; [|exact Hw].
    destruct (audioBuffer (ui w)) as [b|] eqn:Eb.
    + destruct (playBuffer_keeps b (ui w)) as [Hst Hbf].
      destruct (playBuffer b (ui w)) as [l s1]. simpl in Hst, Hbf.
      simpl. rewrite Hbf, Hst, Eb. exact Hw.
    + assert (Hno : storyCalls w = []).
      { destruct (storyCalls w) eqn:E; [reflexivity|].
        assert (Hne : (p :: l) <> []) by discriminate.
        destruct (Hgen Hne) as (H0 & _). rewrite H0 in Et. discriminate. }
      simpl. rewrite Hno, Eb.
      repeat split; try contradiction; try discriminate; auto.
      intros t Hin. apply in_app_or in Hin as [Hin|[<-|[]]]; auto.
  - (* SpeechSettles *)
    destruct (nth_error (speechCalls w) k) as [txt|] eqn:En; [|exact Hw].
    assert (Htxt : txt = story (ui w)) by (apply Hsp; eapply nth_error_In; eauto).
    assert (Hno : storyCalls w = []).
    { destruct (storyCalls w) eqn:E; [reflexivity|].
      assert (Hne : (p :: l) <> []) by discriminate.
      destruct (Hgen Hne) as (_ & _ & H0). rewrite H0 in En.
      destruct k; discriminate. }
    assert (Hin : forall t, In t (remove_nth k (speechCalls w)) -> t = story (ui w)).
    { intros t H. apply in_remove_nth in H. auto. }
    destruct (outcome (generateSpeech ai utils txt)) as [[b|]|e]; simpl; rewrite Hno.
    + destruct (playBuffer_keeps b (setAudioBuffer (Some b) (ui w))) as [Hst Hbf].
      simpl in Hst, Hbf. rewrite Hst.
      repeat split; try contradiction; auto.
      intros b' _. now rewrite Htxt.
    + repeat split; try contradiction; auto.
    + repeat split; try contradiction; auto.
  - (* AudioEnds *)
    exact Hw.
  - (* ClickReset *)
    destruct (speechCalls w) eqn:Es; [|discriminate].
    crush.
Qed.

Lemma settled_run l : forall w, settled w -> calm_run l w = true -> settled (run l w).
Proof.
  induction l as [|a l IH]; intros w Hw Hc; [exact Hw|].
  simpl in Hc. apply andb_true_iff in Hc as [Ha Hl].
  unfold run. simpl. apply IH; [apply settled_step; auto|exact Hl].
Qed.

Lemma genuine_step a w log :
  settled w -> calm a w = true -> cache_genuine log w ->
  cache_genuine (log ++ synth_of a w) (step a w).
Proof.
  intros (Hlen & Hgen & Hsp & _) Hcalm HG.
  unfold cache_genuine in *.
  destruct a as [b64 ty|k ai| |k ai utils| | ]; simpl in Hcalm |- *.
  - (* SelectImage *)
    intros b H. discriminate.
  - (* StorySettles *)
    rewrite app_nil_r.
    destruct (nth_error (storyCalls w) k) as [[b64 ty]|] eqn:En; [|exact HG].
    assert (Hne : storyCalls w <> []).
    { intros E. rewrite E in En. destruct k; discriminate. }
    destruct (Hgen Hne) as (_ & Hbuf & _).
    simpl. rewrite Hbuf. intros b H. discriminate.
  - (* ClickReadAloud *)
    rewrite app_nil_r. unfold handleReadAloud_begin.
    destruct (isPlaying (ui w)); [exact HG|].
    destruct (truthy (story (ui w))); simpl; [|exact HG].
    destruct (audioBuffer (ui w)) as [b|] eqn:Eb; [|simpl; rewrite Eb; exact HG].
    destruct (playBuffer_keeps b (ui w)) as [Hst Hbf].
    destruct (playBuffer b (ui w)) as [l s1]. simpl in Hst, Hbf.
    simpl. rewrite Hbf, Hst, Eb. exact HG.
  - (* SpeechSettles *)
    destruct (nth_error (speechCalls w) k) as [txt|] eqn:En;
      [|rewrite app_nil_r; exact HG].
    assert (Htxt : txt = story (ui w)) by (apply Hsp; eapply nth_error_In; eauto).
    destruct (outcome (generateSpeech ai utils txt)) as [[b0|]|e]; simpl.
    + destruct (playBuffer_keeps b0 (setAudioBuffer (Some b0) (ui w))) as [Hst Hbf].
      simpl in Hst, Hbf. rewrite Hst, Hbf.
      intros b H. injection H as <-. apply in_or_app. right. left.
      now rewrite Htxt.
    + rewrite app_nil_r. exact HG.
    + rewrite app_nil_r. exact HG.
  - (* AudioEnds *)
    rewrite app_nil_r. exact HG.
  - (* ClickReset *)
    intros b H. discriminate.
Qed.

Lemma genuine_run l :
  forall w log,
    settled w -> calm_run l w = true -> cache_genuine log w ->
    cache_genuine (log ++ synths l w) (run l w).
Proof.
  induction l as [|a l IH]; intros w log Hw Hc HG.
  - simpl. rewrite app_nil_r. exact HG.
  - simpl in Hc. apply andb_true_iff in Hc as [Ha Hl].
    cbn [synths]. rewrite app_assoc.
    change (run (a :: l) w) with (run l (step a w)).
    apply IH; [apply settled_step; auto|exact Hl|apply genuine_step; auto].
Qed.

(** X11. Along every run of the session in which an image is
    selected only when no call is in flight and the screen is reset
    only when no speech call is in flight, a cached buffer is always
    the very buffer that a speech call of that run, made for the
    story now on display, resolved to; every speech call in flight
    is for that story, and at most one story call is in flight. *)
Theorem sequential_use_keeps_cache_fresh :
  forall l,
    calm_run l boot = true ->
    cache_genuine (synths l boot) (run l boot) /\
    cache_fresh (run l boot) /\
    (forall t, In t (speechCalls (run l boot)) -> t = story (ui (run l boot))) /\
    length (storyCalls (run l boot)) <= 1.
Proof.
  intros l Hc.
  destruct (settled_run l settled_boot Hc) as (Hlen & _ & Hsp & Hfresh).
  split; [|auto].
  apply (genuine_run l (w := boot) (log := []) settled_boot Hc).
  intros b H. discriminate.
Qed.

Lemma sequential_use_keeps_cache_fresh_witness :
  cache_genuine (synths read_aloud_twice boot)
                (run read_aloud_twice boot) /\
  cache_fresh (run read_aloud_twice boot) /\
  (forall t, In t (speechCalls (run read_aloud_twice boot)) ->
             t = story (ui (run read_aloud_twice boot))) /\
  length (storyCalls (run read_aloud_twice boot)) <= 1.
Proof.
  apply (sequential_use_keeps_cache_fresh read_aloud_twice).
  reflexivity.
Defined.

Lemma readAloud_success ai utils s b ctx :
  isPlaying s = false ->
  truthy (story s) = true ->
  audioBuffer s = None ->
  audioContextRef s = Some ctx ->
  outcome (generateSpeech ai utils (story s)) = Return (Some b) ->
  snd (handleReadAloud ai utils s) =
  {| image := image s; mimeType := mimeType s; story := story s;
     isGenerating := isGenerating s; audioBuffer := Some b; isPlaying := true;
     audioContextRef := audioContextRef s; sourceNodeRef := Some b |}.
Proof.
  intros Hp Ht Hb Hc Ho.
  unfold handleReadAloud, handleReadAloud_begin. rewrite Hp, Ht, Hb. simpl.
  rewrite Ho. simpl. unfold playBuffer. simpl. rewrite Hc. reflexivity.
Qed.

(** X12. Once a read-aloud has succeeded, the buffer is cached and
    playing; a second click stops it without any request; a third
    click plays the cached buffer again, still without any request,
    whatever the endpoint would answer by then. *)
Theorem readAloud_replays_from_cache :
  forall ai utils ai' utils' s b ctx,
    isPlaying s = false ->
    truthy (story s) = true ->
    audioBuffer s = None ->
    audioContextRef s = Some ctx ->
    outcome (generateSpeech ai utils (story s)) = Return (Some b) ->
    let s1 := snd (handleReadAloud ai utils s) in
    let '(l2, s2) := handleReadAloud ai' utils' s1 in
    let '(l3, s3) := handleReadAloud ai' utils' s2 in
    audioBuffer s1 = Some b /\ isPlaying s1 = true /\
    requests l2 = [] /\ started l2 = [] /\ isPlaying s2 = false /\
    requests l3 = [] /\ started l3 = [b] /\ isPlaying s3 = true /\
    audioBuffer s3 = Some b.
Proof.
  intros ai utils ai' utils' s b ctx Hp Ht Hb Hc Ho.
  rewrite (readAloud_success ai utils s Hp Ht Hb Hc Ho).
  unfold handleReadAloud, handleReadAloud_begin, stopAudio, playBuffer. simpl.
  rewrite Ht, Hc. simpl. repeat split.
Qed.

Lemma readAloud_replays_from_cache_witness :
  let s1 := snd (handleReadAloud speaking_ai echo_utils story_ready) in
  let '(l2, s2) := handleReadAloud silent_ai broken_utils s1 in
  let '(l3, s3) := handleReadAloud silent_ai broken_utils s2 in
  audioBuffer s1 = Some {| buffer_sampleRate := 24000; channelData := [[4%N]] |} /\
  isPlaying s1 = true /\
  requests l2 = [] /\ started l2 = [] /\ isPlaying s2 = false /\
  requests l3 = [] /\
  started l3 = [ {| buffer_sampleRate := 24000; channelData := [[4%N]] |} ] /\
  isPlaying s3 = true /\
  audioBuffer s3 = Some {| buffer_sampleRate := 24000; channelData := [[4%N]] |}.
Proof.
  apply (@readAloud_replays_from_cache speaking_ai echo_utils silent_ai broken_utils
           story_ready {| buffer_sampleRate := 24000; channelData := [[4%N]] |}
           {| sampleRate := 24000 |});
    reflexivity.
Defined.

(** X13. When the speech call rejects or resolves to null, the
    read-aloud handler changes nothing on the screen and starts no
    audio: nothing is cached, so the next click asks again. *)
Theorem readAloud_failure_changes_nothing :
  forall ai utils s,
    isPlaying s = false ->
    truthy (story s) = true ->
    audioBuffer s = None ->
    (forall b, outcome (generateSpeech ai utils (story s)) <> Return (Some b)) ->
    snd (handleReadAloud ai utils s) = s /\
    started (fst (handleReadAloud ai utils s)) = [] /\
    requests (fst (handleReadAloud ai utils s)) = [speech_request (story s)].
Proof.
  intros ai utils s Hp Ht Hb Hfail.
  unfold handleReadAloud, handleReadAloud_begin. rewrite Hp, Ht, Hb. simpl.
  revert Hfail.
  unfold generateSpeech, outcome, trace, call, try_catch, bind, ret, emit, lift, throw.
  destruct (models_generateContent ai (speech_request (story s))) as [resp|e]; simpl.
  - destruct (base64Audio resp) as [d|]; simpl; [|intros _; repeat split].
    destruct (truthy d); simpl; [|intros _; repeat split].
    destruct (decodeBase64 utils d) as [bytes|e]; simpl; [|intros _; repeat split].
    destruct (decodeAudioData utils bytes _) as [buf|e]; simpl; [|intros _; repeat split].
    intros H. exfalso. apply (H buf). reflexivity.
  - intros _. repeat split.
Qed.

Lemma readAloud_failure_changes_nothing_witness :
  snd (handleReadAloud speaking_ai broken_utils story_ready) = story_ready /\
  started (fst (handleReadAloud speaking_ai broken_utils story_ready)) = [] /\
  requests (fst (handleReadAloud speaking_ai broken_utils story_ready))
  = [speech_request (story story_ready)].
Proof.
  apply (readAloud_failure_changes_nothing speaking_ai broken_utils story_ready);
    try reflexivity.
  intros b. discriminate.
Defined.

(** X14. After a reset, from any state whatever, the screen is Idle
    with nothing cached and nothing playing, and a click on
    read-aloud does nothing: no request, no audio, no change. *)
Theorem reset_disables_readAloud :
  forall ai utils s,
    let s0 := snd (handleReset s) in
    phase s0 = Some Idle /\
    audioBuffer s0 = None /\ isPlaying s0 = false /\ sourceNodeRef s0 = None /\
    handleReadAloud ai utils s0 = ([], s0).
Proof.
  intros ai utils s. unfold handleReset, stopAudio. simpl.
  repeat split.
Qed.

End AudioFacts.

(* ================================================================== *)
(** * Further properties: what goes out, what is let in *)

(** X15. [sendChatMessage] opens exactly one session, with the
    history it was given and the fixed persona, and sends the new
    message through it verbatim, once; when the session cannot be
    opened, no message is sent at all. *)
Theorem sendChatMessage_requests :
  forall ai hist msg ctx,
    let tr := trace (sendChatMessage ai hist msg ctx) in
    ChatUI.histories tr = [hist] /\
    personas tr = [Some persona] /\
    ChatUI.sent tr = match chats_create ai (chat_params hist) with
                     | Return _ => [msg]
                     | Throw _ => []
                     end.
Proof.
  intros ai hist msg ctx.
  unfold sendChatMessage, trace, call, try_catch, bind, ret, emit.
  destruct (chats_create ai (chat_params hist)) as [chat|e]; simpl.
  - destruct (sendMessage chat _); repeat split.
  - repeat split.
Qed.

(** X16. The upload widget calls back exactly for a file whose type
    starts with "image/"; any other file gets the alert and no
    callback, and no file at all gets neither. *)
Theorem processFile_accepts_iff :
  forall file,
    ((exists args, snd (Upload.processFile file) = Some args) <->
     (exists f, file = Some f /\ startsWith (Upload.file_type f) "image/" = true)) /\
    (alerts (fst (Upload.processFile file)) <> [] <->
     (exists f, file = Some f /\ startsWith (Upload.file_type f) "image/" = false)).
Proof.
  intros [f|]; unfold Upload.processFile.
  - destruct (startsWith (Upload.file_type f) "image/") eqn:E; cbn -[startsWith];
      split; split.
    + intros _. exists f. auto.
    + intros _. eexists. reflexivity.
    + intros H. now contradiction H.
    + intros (f' & Hf & H'). injection Hf as <-. congruence.
    + intros (args & H). discriminate.
    + intros (f' & Hf & H'). injection Hf as <-. congruence.
    + intros _. exists f. auto.
    + intros _. discriminate.
  - cbn -[startsWith]. split; split.
    + intros (args & H). discriminate.
    + intros (f & H & _). discriminate.
    + intros H. now contradiction H.
    + intros (f & H & _). discriminate.
Qed.
